(** * Audio watermark authentication: embedding and detection

    A shallow embedding of the watermark core of the repository
    ([backend/watermark/embed.py], [extract.py], [keypairs.py],
    [registry.py]) and the properties of its specification.

    Conventions.
    - A Python [str] is a Rocq [string] holding its UTF-8 encoding, so
      [s.encode()] is [list_byte_of_string s] and [+] on [str] is [+:+].
    - A Python [bytes] is a [list byte].
    - A numpy float is a [spec_float] (Stdlib's executable IEEE-754 model):
      binary32 operations have [prec = 24], [emax = 128], binary64 operations
      [prec = 53], [emax = 1024].
    - Python exceptions are the [Raise] branch of [result]. *)

From Stdlib Require Import ZArith String Ascii List SpecFloat Lia DecimalString.
From Stdlib.Strings Require Import Byte.
From stdpp Require Import gmap strings list fin_maps.

Set Warnings "-register-all,-automation".

Local Open Scope string_scope.
Local Open Scope Z_scope.

(** ** SHA-256 ([hashlib.sha256]), FIPS 180-4, on 32-bit words held in [Z] *)

Module SHA256.

Definition wrap32 (x : Z) : Z := x mod 2 ^ 32.
Definition add32 (x y : Z) : Z := wrap32 (x + y).
Definition rotr (n x : Z) : Z :=
  Z.lor (Z.shiftr x n) (wrap32 (Z.shiftl x (32 - n))).
Definition not32 (x : Z) : Z := 2 ^ 32 - 1 - x.

Definition Ch (x y z : Z) : Z := Z.lxor (Z.land x y) (Z.land (not32 x) z).
Definition Maj (x y z : Z) : Z :=
  Z.lxor (Z.lxor (Z.land x y) (Z.land x z)) (Z.land y z).
Definition bsig0 (x : Z) : Z := Z.lxor (Z.lxor (rotr 2 x) (rotr 13 x)) (rotr 22 x).
Definition bsig1 (x : Z) : Z := Z.lxor (Z.lxor (rotr 6 x) (rotr 11 x)) (rotr 25 x).
Definition ssig0 (x : Z) : Z := Z.lxor (Z.lxor (rotr 7 x) (rotr 18 x)) (Z.shiftr x 3).
Definition ssig1 (x : Z) : Z := Z.lxor (Z.lxor (rotr 17 x) (rotr 19 x)) (Z.shiftr x 10).

(** Round constants (fractional parts of the cube roots of the first 64
    primes), in decimal. *)
Definition K : list Z :=
  [ 1116352408; 1899447441; 3049323471; 3921009573; 961987163; 1508970993;
    2453635748; 2870763221; 3624381080; 310598401; 607225278; 1426881987;
    1925078388; 2162078206; 2614888103; 3248222580; 3835390401; 4022224774;
    264347078; 604807628; 770255983; 1249150122; 1555081692; 1996064986;
    2554220882; 2821834349; 2952996808; 3210313671; 3336571891; 3584528711;
    113926993; 338241895; 666307205; 773529912; 1294757372; 1396182291;
    1695183700; 1986661051; 2177026350; 2456956037; 2730485921; 2820302411;
    3259730800; 3345764771; 3516065817; 3600352804; 4094571909; 275423344;
    430227734; 506948616; 659060556; 883997877; 958139571; 1322822218;
    1537002063; 1747873779; 1955562222; 2024104815; 2227730452; 2361852424;
    2428436474; 2756734187; 3204031479; 3329325298 ].

(** The eight chaining words. *)
Record hstate : Type := HState {
  ha : Z; hb : Z; hc : Z; hd : Z; he : Z; hf : Z; hg : Z; hh : Z }.

Definition H_init : hstate :=
  HState 1779033703 3144134277 1013904242 2773480762
         1359893119 2600822924 528734635 1541459225.

(** Message schedule: [win] holds W(t) .. W(t+15); each step emits W(t) and
    appends W(t+16). *)
Fixpoint schedule (n : nat) (win : list Z) : list Z :=
  match n, win with
  | O, _ => []
  | S n', w0 :: rest =>
      let nw := add32 (add32 (add32 (ssig1 (nth 14 win 0)) (nth 9 win 0))
                              (ssig0 (nth 1 win 0))) w0 in
      w0 :: schedule n' (rest ++ [nw])
  | S _, [] => []
  end.

Definition round (s : hstate) (kw : Z * Z) : hstate :=
  let '(k, w) := kw in
  let t1 := add32 (add32 (add32 (add32 (hh s) (bsig1 (he s)))
                                 (Ch (he s) (hf s) (hg s))) k) w in
  let t2 := add32 (bsig0 (ha s)) (Maj (ha s) (hb s) (hc s)) in
  HState (add32 t1 t2) (ha s) (hb s) (hc s) (add32 (hd s) t1) (he s) (hf s) (hg s).

Definition compress (H : hstate) (block : list Z) : hstate :=
  let s := fold_left round (combine K (schedule 64 block)) H in
  HState (add32 (ha H) (ha s)) (add32 (hb H) (hb s)) (add32 (hc H) (hc s))
         (add32 (hd H) (hd s)) (add32 (he H) (he s)) (add32 (hf H) (hf s))
         (add32 (hg H) (hg s)) (add32 (hh H) (hh s)).

Definition byte_val (b : byte) : Z := Z.of_N (Byte.to_N b).
Definition byte_of_Z (z : Z) : byte :=
  match Byte.of_N (Z.to_N (z mod 256)) with Some b => b | None => x00 end.

(** Big-endian value of a byte sequence. *)
Definition be_int (bs : list byte) : Z :=
  fold_left (fun acc b => acc * 256 + byte_val b) bs 0.

Definition be_bytes4 (w : Z) : list byte :=
  [ byte_of_Z (Z.shiftr w 24); byte_of_Z (Z.shiftr w 16);
    byte_of_Z (Z.shiftr w 8); byte_of_Z w ].

Definition be_bytes8 (n : Z) : list byte :=
  be_bytes4 (Z.shiftr n 32) ++ be_bytes4 n.

(** Padding: a 1 bit, zero bits up to 56 mod 64 bytes, the bit length on 64
    bits. *)
Definition pad (msg : list byte) : list byte :=
  let len := Z.of_nat (length msg) in
  msg ++ x80 :: repeat x00 (Z.to_nat ((55 - len) mod 64)) ++ be_bytes8 (8 * len).

Fixpoint words (fuel : nat) (bs : list byte) : list Z :=
  match fuel, bs with
  | S f, b0 :: b1 :: b2 :: b3 :: rest => be_int [b0; b1; b2; b3] :: words f rest
  | _, _ => []
  end.

Fixpoint blocks (fuel : nat) (ws : list Z) (H : hstate) : hstate :=
  match fuel, ws with
  | S f, _ :: _ => blocks f (skipn 16 ws) (compress H (firstn 16 ws))
  | _, _ => H
  end.

Definition digest_of (H : hstate) : list byte :=
  be_bytes4 (ha H) ++ be_bytes4 (hb H) ++ be_bytes4 (hc H) ++ be_bytes4 (hd H) ++
  be_bytes4 (he H) ++ be_bytes4 (hf H) ++ be_bytes4 (hg H) ++ be_bytes4 (hh H).

Definition sha256 (msg : list byte) : list byte :=
  let p := pad msg in
  let ws := words (length p) p in
  digest_of (blocks (length ws) ws H_init).

(** [.hexdigest()]: two lowercase hexadecimal digits per byte. *)
Definition hex_digit (n : Z) : ascii :=
  if n <? 10 then ascii_of_N (Z.to_N (48 + n)) else ascii_of_N (Z.to_N (87 + n)).

Fixpoint hex_of_bytes (bs : list byte) : string :=
  match bs with
  | [] => EmptyString
  | b :: rest =>
      String (hex_digit (byte_val b / 16))
        (String (hex_digit (byte_val b mod 16)) (hex_of_bytes rest))
  end.

Definition hexdigest (msg : list byte) : string := hex_of_bytes (sha256 msg).

(** [int(s, 16)] on strings of hexadecimal digits; any other character is a
    [ValueError] ([None]).  The code only applies it to [hexdigest] output. *)
Definition hex_value (c : ascii) : option Z :=
  let n := Z.of_N (N_of_ascii c) in
  if (48 <=? n) && (n <=? 57) then Some (n - 48)
  else if (97 <=? n) && (n <=? 102) then Some (n - 87)
  else if (65 <=? n) && (n <=? 70) then Some (n - 55)
  else None.

Fixpoint int16_from (acc : Z) (s : string) : option Z :=
  match s with
  | EmptyString => Some acc
  | String c rest =>
      match hex_value c with
      | Some d => int16_from (acc * 16 + d) rest
      | None => None
      end
  end.

Definition int16 (s : string) : option Z :=
  match s with
  | EmptyString => None
  | _ => int16_from 0 s
  end.

End SHA256.

(** ** Python exceptions and fallible computations *)

Inductive exn : Type :=
  | ValueError | TypeError | AttributeError | NameError | KeyError | OSError
  | JSONDecodeError | InvalidSignature | LibraryError.

Inductive result (A : Type) : Type :=
  | Ok (a : A)
  | Raise (e : exn).
Arguments Ok {A} a.
Arguments Raise {A} e.

Definition rbind {A B : Type} (r : result A) (k : A -> result B) : result B :=
  match r with Ok a => k a | Raise e => Raise e end.

(** [try: body  except Exception: handler]. *)
Definition try_except {A : Type} (body : result A) (handler : exn -> result A) : result A :=
  match body with Ok a => Ok a | Raise e => handler e end.

Definition of_option {A : Type} (e : exn) (o : option A) : result A :=
  match o with Some a => Ok a | None => Raise e end.

(** ** numpy arithmetic on IEEE-754 values *)

Module Np.

Definition zero : spec_float := S754_zero false.
Definition nan : spec_float := S754_nan.
Definition of_Z (z : Z) : spec_float := binary_normalize 53 1024 z 0 false.
Definition one : spec_float := of_Z 1.
Definition two : spec_float := of_Z 2.

Definition add64 : spec_float -> spec_float -> spec_float := SFadd 53 1024.
Definition sub64 : spec_float -> spec_float -> spec_float := SFsub 53 1024.
Definition mul64 : spec_float -> spec_float -> spec_float := SFmul 53 1024.
Definition div64 : spec_float -> spec_float -> spec_float := SFdiv 53 1024.
Definition sqrt64 : spec_float -> spec_float := SFsqrt 53 1024.
Definition div32 : spec_float -> spec_float -> spec_float := SFdiv 24 128.

(** Widening a binary32 value to binary64 is exact; only the
    representation of the mantissa changes. *)
Definition f64_of_f32 (x : spec_float) : spec_float :=
  match x with
  | S754_finite s m e => binary_round 53 1024 s m e
  | _ => x
  end.

Definition isnan (x : spec_float) : bool :=
  match x with S754_nan => true | _ => false end.

(** A sample of zero amplitude. *)
Definition is_zero (x : spec_float) : bool :=
  match x with S754_zero _ => true | _ => false end.


(** [if np.isnan(c): c = 0.0] *)
Definition nan_to_zero (c : spec_float) : spec_float :=
  if isnan c then zero else c.

(** [a > b] *)
Definition gt (a b : spec_float) : bool := SFltb b a.

(** [np.maximum] and [np.minimum]: NaN in the first operand propagates. *)
Definition maximum (a b : spec_float) : spec_float :=
  if SFleb b a || isnan a then a else b.
Definition minimum (a b : spec_float) : spec_float :=
  if SFleb a b || isnan a then a else b.

(** [np.max(a)]: a left-to-right reduction; an empty array has no maximum. *)
Definition amax (l : list spec_float) : result spec_float :=
  match l with
  | [] => Raise ValueError
  | x :: rest => Ok (fold_left maximum rest x)
  end.

(** [np.clip(c, lo, hi)] *)
Definition clip (c lo hi : spec_float) : spec_float :=
  minimum (maximum c lo) hi.

(** Sums are taken left to right.  numpy's own order of additions (pairwise
    blocks, BLAS for [dot]) may differ in the last bits of a finite result;
    nothing below depends on them. *)
Definition sum64 (l : list spec_float) : spec_float :=
  match l with
  | [] => zero
  | x :: rest => fold_left add64 rest x
  end.

Definition mean (l : list spec_float) : spec_float :=
  div64 (sum64 l) (of_Z (Z.of_nat (length l))).

Definition center (l : list spec_float) : list spec_float :=
  let avg := mean l in map (fun x => sub64 x avg) l.

Definition dot (a b : list spec_float) : spec_float :=
  sum64 (zip_with mul64 a b).

(** [fact = N - ddof] with [ddof = 1]; [fact <= 0] is replaced by [0.0]
    (numpy only warns). *)
Definition cov_fact (n : nat) : spec_float :=
  if Z.of_nat n - 1 <=? 0 then zero else of_Z (Z.of_nat n - 1).

(** [np.corrcoef(x, y)[0, 1]] for a binary32 array [x] and a binary64 array
    [y]: covariance matrix, divided by the row then by the column standard
    deviation, clipped to [-1, 1]. *)
Definition corrcoef01 (x y : list spec_float) : result spec_float :=
  if Nat.eqb (length x) (length y) then
    let X0 := center (map f64_of_f32 x) in
    let X1 := center y in
    let f := div64 one (cov_fact (length x)) in
    let c00 := mul64 (dot X0 X0) f in
    let c01 := mul64 (dot X0 X1) f in
    let c11 := mul64 (dot X1 X1) f in
    let stddev0 := sqrt64 c00 in
    let stddev1 := sqrt64 c11 in
    Ok (clip (div64 (div64 c01 stddev0) stddev1) (SFopp one) one)
  else Raise ValueError.

(** [a.tobytes()] of a binary32 array: four little-endian bytes per sample.
    [nan_bits] is the platform's bit pattern of the NaN a division
    produces. *)
Definition bits32 (nan_bits : Z) (x : spec_float) : Z :=
  match x with
  | S754_zero s => if s then 2 ^ 31 else 0
  | S754_infinity s => (if s then 2 ^ 31 else 0) + 255 * 2 ^ 23
  | S754_nan => nan_bits
  | S754_finite s m e =>
      (if s then 2 ^ 31 else 0) +
      (if Z.pos (digits2_pos m) =? 24
       then (e + 150) * 2 ^ 23 + (Z.pos m - 2 ^ 23)
       else Z.pos m)
  end.

Definition le_bytes4 (w : Z) : list byte :=
  [ SHA256.byte_of_Z w; SHA256.byte_of_Z (Z.shiftr w 8);
    SHA256.byte_of_Z (Z.shiftr w 16); SHA256.byte_of_Z (Z.shiftr w 24) ].

Definition tobytes (nan_bits : Z) (l : list spec_float) : list byte :=
  concat (map (fun x => le_bytes4 (bits32 nan_bits x)) l).

End Np.

(** ** Python values read from JSON, files and the process environment *)

Inductive json : Type :=
  | JNull
  | JBool (b : bool)
  | JNum (z : Z)
  | JFloat (x : spec_float)
  | JStr (s : string)
  | JList (l : list json)
  | JDict (d : gmap string json).

(** What a path holds, by what the decoders make of it: [librosa.load]
    succeeds on [FAudio] (giving mono binary32 samples at 44100 Hz),
    [json.load] succeeds on [FJson]. *)
Inductive file : Type :=
  | FAudio (samples : list spec_float)
  | FJson (doc : json)
  | FOther.

Record world : Type := World {
  fs : gmap string file;   (* the file system *)
  entropy : N;             (* state of the OS random source (PSS salts) *)
  clock : N                (* state of the wall clock *)
}.

Definition set_fs (f : gmap string file) (w : world) : world :=
  World f (entropy w) (clock w).

(** Computations that read and write the world and may raise. *)
Definition M (A : Type) : Type := world -> result A * world.

Definition ret {A : Type} (a : A) : M A := fun w => (Ok a, w).
Definition raise {A : Type} (e : exn) : M A := fun w => (Raise e, w).
Definition lift {A : Type} (r : result A) : M A := fun w => (r, w).
Definition bind {A B : Type} (m : M A) (k : A -> M B) : M B :=
  fun w => match m w with
           | (Ok a, w') => k a w'
           | (Raise e, w') => (Raise e, w')
           end.
Definition Mtry {A : Type} (body : M A) (handler : exn -> M A) : M A :=
  fun w => match body w with
           | (Ok a, w') => (Ok a, w')
           | (Raise e, w') => handler e w'
           end.

Notation "'let*' x ':=' m 'in' k" := (bind m (fun x => k))
  (at level 10, x name, m at level 100, k at level 200).
Notation "'let?' x ':=' r 'in' k" := (rbind r (fun x => k))
  (at level 10, x name, r at level 100, k at level 200).

(** *** External libraries, as interfaces *)

(** [numpy.random]: [default_rng(seed)] builds a fresh generator;
    [Generator.standard_normal(n)] fills an array with [n] successive draws. *)
Class BitGenerator : Type := {
  bitgen : Type;
  default_rng : Z -> bitgen;
  next_standard_normal : bitgen -> spec_float * bitgen
}.

(** [cryptography] (RSA keys in PEM, RSA-PSS with MGF1-SHA256 and maximal
    salt, SHA-256) and [base64]. *)
Class Crypto : Type := {
  private_key : Type;
  public_key : Type;
  load_pem_private_key : list byte -> result private_key;
  load_pem_public_key : list byte -> result public_key;
  pss_sign : private_key -> list byte -> N -> result (list byte);
  pss_verify : public_key -> list byte -> list byte -> result unit;
  b64encode : list byte -> list byte;
  b64decode : string -> result (list byte)
}.

(** The host: what a sample becomes when [soundfile] stores it and
    [librosa] reads it back, which paths can be written, the bit pattern of
    a computed binary32 NaN, [str()] of a JSON value that is not a string,
    and [datetime.isoformat()] of a clock reading. *)
Class Host : Type := {
  store_sample : spec_float -> spec_float;
  writable : string -> bool;
  nan_bits32 : Z;
  py_str : json -> string;
  isoformat : N -> string
}.

(** *** Strings *)

(** [s.replace(old, new)] for a non-empty [old]: occurrences are replaced
    left to right without overlap.  [skip] counts the characters of the
    current occurrence still to be dropped. *)
Fixpoint replace_from (old new : string) (skip : nat) (s : string) : string :=
  match s with
  | EmptyString => EmptyString
  | String c rest =>
      match skip with
      | S k => replace_from old new k rest
      | O =>
          if String.prefix old s
          then new +:+ replace_from old new (Nat.pred (String.length old)) rest
          else String c (replace_from old new O rest)
      end
  end.

Definition str_replace (old new s : string) : string := replace_from old new O s.

(** [needle in s] on strings. *)
Fixpoint str_contains (needle s : string) : bool :=
  String.prefix needle s ||
  match s with
  | EmptyString => false
  | String _ rest => str_contains needle rest
  end.

Definition encode (s : string) : list byte := list_byte_of_string s.
Definition decode (b : list byte) : string := string_of_list_byte b.

(** *** Operations on JSON values *)

(** [v.get(key, default)] *)
Definition py_get (v : json) (key : string) (default : json) : result json :=
  match v with
  | JDict d => Ok (match d !! key with Some x => x | None => default end)
  | _ => Raise AttributeError
  end.

(** The value [d.get(key, "")] of a record. *)
Definition record_field (d : gmap string json) (key : string) : json :=
  match d !! key with Some x => x | None => JStr "" end.

(** [v == s] for a string [s] *)
Definition py_eq_str (v : json) (s : string) : bool :=
  match v with
  | JStr t => String.eqb t s
  | _ => false
  end.

(** [key in v] for a string [key] *)
Definition py_contains (key : string) (v : json) : result bool :=
  match v with
  | JDict d => Ok (bool_decide (is_Some (d !! key)))
  | JList l => Ok (existsb (fun x => py_eq_str x key) l)
  | JStr s => Ok (str_contains key s)
  | _ => Raise TypeError
  end.

(** [v[key]] for a string [key] *)
Definition py_getitem (v : json) (key : string) : result json :=
  match v with
  | JDict d => of_option KeyError (d !! key)
  | _ => Raise TypeError
  end.

(** [s + v] for a string [s] *)
Definition py_str_add (s : string) (v : json) : result string :=
  match v with
  | JStr t => Ok (s +:+ t)
  | _ => Raise TypeError
  end.

(** *** Files *)

(** [librosa.load(path, sr=44100, mono=True)] *)
Definition librosa_load (path : string) : M (list spec_float) :=
  fun w => match fs w !! path with
           | Some (FAudio y) => (Ok y, w)
           | Some _ => (Raise LibraryError, w)
           | None => (Raise OSError, w)
           end.

Definition os_path_exists (path : string) : M bool :=
  fun w => (Ok (bool_decide (is_Some (fs w !! path))), w).

(** [with open(path, 'r') as f: json.load(f)] *)
Definition json_load (path : string) : M json :=
  fun w => match fs w !! path with
           | Some (FJson j) => (Ok j, w)
           | Some _ => (Raise JSONDecodeError, w)
           | None => (Raise OSError, w)
           end.

Section Program.
Context {G : BitGenerator} {C : Crypto} {H : Host}.

(** [sf.write(path, data, sr)] *)
Definition sf_write (path : string) (data : list spec_float) : M unit :=
  fun w => if writable path
           then (Ok tt, set_fs (<[path := FAudio (map store_sample data)]> (fs w)) w)
           else (Raise LibraryError, w).

(** [with open(path, 'w') as f: json.dump(doc, f, indent=2)] *)
Definition json_dump (doc : json) (path : string) : M unit :=
  fun w => if writable path
           then (Ok tt, set_fs (<[path := FJson doc]> (fs w)) w)
           else (Raise OSError, w).

(** [rng.standard_normal(n)] *)
Fixpoint standard_normal (g : bitgen) (n : nat) : list spec_float * bitgen :=
  match n with
  | O => ([], g)
  | S n' =>
      let (x, g') := next_standard_normal g in
      let (xs, g'') := standard_normal g' n' in
      (x :: xs, g'')
  end.

(** ** The watermark core (embed.py, extract.py) *)

(** [y = y / np.max(np.abs(y))] on a binary32 array *)
Definition normalize (y : list spec_float) : result (list spec_float) :=
  let? peak := Np.amax (map SFabs y) in
  Ok (map (fun x => Np.div32 x peak) y).

(** [int(hashlib.sha256(material.encode()).hexdigest(), 16) % 2**32] *)
Definition pattern_seed (material : string) : result Z :=
  let? n := of_option ValueError (SHA256.int16 (SHA256.hexdigest (encode material))) in
  Ok (n mod 2 ^ 32).

(** The digest of the UTF-8 encoding of [material], read as a big-endian
    unsigned integer. *)
Definition sha256_int (material : string) : Z :=
  SHA256.be_int (SHA256.sha256 (encode material)).

(** [rng = np.random.default_rng(seed); pattern = rng.standard_normal(n)] *)
Definition generate_pattern (seed : Z) (n : nat) : list spec_float :=
  let rng := default_rng seed in
  fst (standard_normal rng n).

(** The literals [0.001] (gain and threshold), nearest binary64 value. *)
Definition alpha : spec_float := S754_finite false 4611686018427388 (-62).
Definition threshold : spec_float := S754_finite false 4611686018427388 (-62).

(** [y + alpha * pattern]: [y] is binary32, the result binary64. *)
Definition mix (y pattern : list spec_float) : list spec_float :=
  zip_with (fun a p => Np.add64 (Np.f64_of_f32 a) (Np.mul64 alpha p)) y pattern.

(** [corr = np.corrcoef(y, pattern)[0, 1]; if np.isnan(corr): corr = 0.0] *)
Definition correlation (y pattern : list spec_float) : result spec_float :=
  let? corr := Np.corrcoef01 y pattern in
  Ok (Np.nan_to_zero corr).

Definition embed_watermark (input_path output_path id_str secret : string) : M string :=
  let* y := librosa_load input_path in
  let* y := lift (normalize y) in
  let* seed := lift (pattern_seed (id_str +:+ secret)) in
  let pattern := generate_pattern seed (length y) in
  let y_marked := mix y pattern in
  let* _ := sf_write output_path y_marked in
  ret output_path.

Definition detect_watermark (audio_path id_str secret : string) : M (bool * spec_float) :=
  let* y := librosa_load audio_path in
  let* y := lift (normalize y) in
  let* seed := lift (pattern_seed (id_str +:+ secret)) in
  let pattern := generate_pattern seed (length y) in
  let* corr := lift (correlation y pattern) in
  let verified := Np.gt corr threshold in
  ret (verified, corr).

(** ** Signatures (keypairs.py) *)

(** [f"{artist_id}:{watermark_data}".encode('utf-8')] *)
Definition format_value (v : json) : string :=
  match v with JStr s => s | _ => py_str v end.
Definition signed_message (artist_id : string) (watermark_data : json) : list byte :=
  encode (artist_id +:+ ":" +:+ format_value watermark_data).

Definition sign_watermark (artist_id watermark_data private_key_pem : string) : M string :=
  let* key := lift (load_pem_private_key (encode private_key_pem)) in
  let message := signed_message artist_id (JStr watermark_data) in
  fun w =>
    match pss_sign key message (entropy w) with
    | Ok signature =>
        (Ok (decode (b64encode signature)),
         World (fs w) (N.succ (entropy w)) (clock w))
    | Raise e => (Raise e, w)
    end.

(** [base64.b64decode(signature)] *)
Definition b64decode_value (signature : json) : result (list byte) :=
  match signature with
  | JStr s => b64decode s
  | _ => Raise TypeError
  end.

Definition verify_signature (artist_id : string) (watermark_data signature : json)
    (public_key_pem : string) : result bool :=
  try_except
    (let? key := load_pem_public_key (encode public_key_pem) in
     let? signature_bytes := b64decode_value signature in
     let message := signed_message artist_id watermark_data in
     let? _ := pss_verify key signature_bytes message in
     Ok true)
    (fun _ => Ok false).

Definition create_watermark_signature (artist_id audio_hash private_key_pem : string)
    : M string :=
  sign_watermark artist_id audio_hash private_key_pem.

Definition verify_watermark_signature (artist_id : string) (audio_hash signature : json)
    (public_key_pem : string) : result bool :=
  verify_signature artist_id audio_hash signature public_key_pem.

(** ** Signed embedding and detection *)

Definition metadata_path_of (path : string) : string :=
  str_replace ".wav" "_metadata.json" path.

(** The [metadata] dictionary of the signed embedder. *)
Definition provenance_record (id_str signature audio_hash : string) : json :=
  JDict (list_to_map
    [ ("artist_id", JStr id_str);
      ("signature", JStr signature);
      ("audio_hash", JStr audio_hash);
      ("watermark_type", JStr "cryptographic") ]).

Definition embed_watermark_with_signature
    (input_path output_path id_str private_key_pem : string) : M string :=
  let* y := librosa_load input_path in
  let* y := lift (normalize y) in
  let audio_hash := SHA256.hexdigest (Np.tobytes nan_bits32 y) in
  let* signature := create_watermark_signature id_str audio_hash private_key_pem in
  let* seed := lift (pattern_seed (id_str +:+ signature)) in
  let pattern := generate_pattern seed (length y) in
  let y_marked := mix y pattern in
  let* _ := sf_write output_path y_marked in
  let metadata := provenance_record id_str signature audio_hash in
  let metadata_path := metadata_path_of output_path in
  let* _ := json_dump metadata metadata_path in
  ret output_path.

(** The statements of the [try] block once [metadata] is bound; the result
    is [(signature_valid, signature_score)]. *)
Definition check_metadata (metadata : json) (id_str public_key_pem : string)
    : result (bool * spec_float) :=
  let? kind := py_get metadata "watermark_type" JNull in
  if py_eq_str kind "cryptographic" then
    let? audio_hash := py_get metadata "audio_hash" (JStr "") in
    let? signature := py_get metadata "signature" (JStr "") in
    let? signature_valid :=
      verify_watermark_signature id_str audio_hash signature public_key_pem in
    Ok (signature_valid, if signature_valid then Np.one else Np.zero)
  else Ok (false, Np.zero).

(** The [if os.path.exists(metadata_path): try: ... except Exception: ...]
    statement.  The result is [(metadata, signature_valid,
    signature_score)]; [metadata] is [None] while the name is unbound, and
    stays bound when a later statement of the [try] block raises. *)
Definition read_signature (metadata_path id_str public_key_pem : string)
    : M (option json * bool * spec_float) :=
  let* present := os_path_exists metadata_path in
  if present then
    Mtry
      (let* metadata := json_load metadata_path in
       let* r := lift (try_except (check_metadata metadata id_str public_key_pem)
                                  (fun _ => Ok (false, Np.zero))) in
       ret (Some metadata, fst r, snd r))
      (fun _ => ret (None, false, Np.zero))
  else ret (None, false, Np.zero).

(** The seed of the signed detector: [signature_valid and "signature" in
    metadata] selects the signature-bound material, anything else the
    fixed fallback material. *)
Definition detection_seed (metadata : option json) (signature_valid : bool)
    (id_str : string) : result Z :=
  let? use_signature :=
    if signature_valid then
      match metadata with
      | Some md => py_contains "signature" md
      | None => Raise NameError
      end
    else Ok false in
  if use_signature then
    let? md := of_option NameError metadata in
    let? signature := py_getitem md "signature" in
    let? material := py_str_add id_str signature in
    pattern_seed material
  else pattern_seed (id_str +:+ "fallback").

Definition detect_watermark_with_signature (audio_path id_str public_key_pem : string)
    : M (bool * spec_float * bool) :=
  let* y := librosa_load audio_path in
  let* y := lift (normalize y) in
  let metadata_path := metadata_path_of audio_path in
  let* st := read_signature metadata_path id_str public_key_pem in
  let metadata := fst (fst st) in
  let signature_valid := snd (fst st) in
  let signature_score := snd st in
  let* seed := lift (detection_seed metadata signature_valid id_str) in
  let pattern := generate_pattern seed (length y) in
  let* corr := lift (correlation y pattern) in
  let correlation_verified := Np.gt corr threshold in
  let verified := signature_valid && correlation_verified in
  let combined_score := Np.div64 (Np.add64 corr signature_score) Np.two in
  ret (verified, combined_score, signature_valid).

(** ** The artist registry (registry.py) *)

Record KeyRegistry : Type := {
  registry_file : string;
  registry : gmap string json
}.

(** [datetime.now().isoformat()] *)
Definition datetime_now (w : world) : string * world :=
  (isoformat (clock w), World (fs w) (entropy w) (N.succ (clock w))).

(** [x or default] on an optional string *)
Definition py_or (x : option string) (default : string) : string :=
  match x with
  | Some s => if String.eqb s "" then default else s
  | None => default
  end.

Definition is_slash (c : ascii) : bool := Ascii.eqb c "/"%char.

Fixpoint drop_while (f : ascii -> bool) (l : list ascii) : list ascii :=
  match l with
  | c :: rest => if f c then drop_while f rest else l
  | [] => []
  end.

(** [os.path.dirname(p)]: up to the last slash, trailing slashes removed
    unless nothing else is left. *)
Definition os_path_dirname (p : string) : string :=
  let head := rev (drop_while (fun c => negb (is_slash c)) (rev (list_ascii_of_string p))) in
  if forallb is_slash head then string_of_list_ascii head
  else string_of_list_ascii (rev (drop_while is_slash (rev head))).

(** [os.makedirs(d, exist_ok=True)]: the empty path cannot be created. *)
Definition os_makedirs (d : string) : M unit :=
  fun w => if String.eqb d "" then (Raise OSError, w)
           else if writable d then (Ok tt, w) else (Raise OSError, w).

Definition _save_registry (self : KeyRegistry) : M unit :=
  let* _ := os_makedirs (os_path_dirname (registry_file self)) in
  json_dump (JDict (registry self)) (registry_file self).

(** The method mutates [self] before saving, so the object is returned
    with the outcome also when saving raises. *)
Definition register_artist (self : KeyRegistry) (artist_id public_key : string)
    (artist_name contact_info description auth_token : option string) (w : world)
    : result bool * KeyRegistry * world :=
  if bool_decide (is_Some (registry self !! artist_id)) then (Ok false, self, w)
  else
    let (registered_at, w1) := datetime_now w in
    let (last_updated, w2) := datetime_now w1 in
    let entry :=
      JDict (list_to_map
        [ ("public_key", JStr public_key);
          ("artist_name", JStr (py_or artist_name artist_id));
          ("contact_info", JStr (py_or contact_info ""));
          ("description", JStr (py_or description ""));
          ("registered_at", JStr registered_at);
          ("last_updated", JStr last_updated) ]) in
    let self' := {| registry_file := registry_file self;
                    registry := <[artist_id := entry]> (registry self) |} in
    match _save_registry self' w2 with
    | (Ok _, w3) => (Ok true, self', w3)
    | (Raise e, w3) => (Raise e, self', w3)
    end.

End Program.

(** ** Further functions of the watermark core *)

(** A computation that leaves the world as it found it, whatever it
    returns or raises. *)
Definition preserves {A : Type} (m : M A) : Prop := forall w, snd (m w) = w.

Section Hybrid.
Context {G : BitGenerator} {C : Crypto} {H : Host}.

Definition detect_watermark_hybrid (audio_path id_str secret_or_public_key : string)
    (is_key_pair : bool) : M (bool * spec_float * string) :=
  if is_key_pair then
    let* r := detect_watermark_with_signature audio_path id_str secret_or_public_key in
    let verified := fst (fst r) in
    let score := snd (fst r) in
    let signature_valid := snd r in
    let method := if signature_valid then "cryptographic" else "correlation" in
    ret (verified, score, method)
  else
    let* r := detect_watermark audio_path id_str secret_or_public_key in
    let verified := fst r in
    let score := snd r in
    ret (verified, score, "traditional").

End Hybrid.

(** ** The other methods of the registry (registry.py) *)

(** The process around the core: [int(time.time())] of a clock state,
    [str(e)] of an exception, the name [tempfile] picks for a new file with
    a given suffix, and whether the bytes of a file that holds no JSON
    decode as text when it is opened in text mode. *)
Class Runtime : Type := {
  epoch_seconds : N -> Z;
  exn_str : exn -> string;
  temp_path : gmap string file -> string -> string;
  decodes_as_text : file -> bool
}.

Section RegistryOps.
Context {H : Host} {R : Runtime}.

(** [with open(path, 'r') as f: json.load(f)], telling apart the two ways
    in which a file that holds no JSON fails: bytes that do not decode as
    text raise [UnicodeDecodeError], a [ValueError], while they are read;
    text that is not JSON raises [json.JSONDecodeError]. *)
Definition json_load_text (path : string) : M json :=
  fun w => match fs w !! path with
           | Some (FJson j) => (Ok j, w)
           | Some f =>
               (Raise (if decodes_as_text f then JSONDecodeError else ValueError), w)
           | None => (Raise OSError, w)
           end.

(** [_load_registry]: a missing file or a [json.JSONDecodeError] gives the
    empty registry ([FileNotFoundError] is the [OSError] of a missing
    file); every other error propagates.  The value loaded need not be a
    dictionary; the methods of [KeyRegistry] are modelled for an object
    whose [registry] is one, as after loading a missing file or a file
    that holds a JSON object. *)
Definition _load_registry (registry_file : string) : M json :=
  let* present := os_path_exists registry_file in
  if present then
    Mtry (json_load_text registry_file)
         (fun e => match e with
                   | JSONDecodeError | OSError => ret (JDict ∅)
                   | _ => raise e
                   end)
  else ret (JDict ∅).

(** [self.registry.get(artist_id)] *)
Definition get_artist_key (self : KeyRegistry) (artist_id : string) : option json :=
  registry self !! artist_id.

(** [if value: entry[key] = value] *)
Definition set_field (key : string) (value : option string) (entry : gmap string json)
    : gmap string json :=
  match value with
  | Some s => if String.eqb s "" then entry else <[key := JStr s]> entry
  | None => entry
  end.

(** The truth value of an optional string. *)
Definition py_truthy (x : option string) : bool :=
  match x with
  | Some s => negb (String.eqb s "")
  | None => false
  end.

(** What a field holds after [if value: entry[key] = value]. *)
Definition field_after (value : option string) (old : option json) : option json :=
  match value with
  | Some s => if String.eqb s "" then old else Some (JStr s)
  | None => old
  end.

(** An entry that is not a dictionary (the registry file may hold any JSON)
    makes the first item assignment raise [TypeError]; the clock has been
    read by then only if that assignment is the one of [last_updated]. *)
Definition update_artist (self : KeyRegistry) (artist_id : string)
    (public_key artist_name contact_info description : option string) (w : world)
    : result bool * KeyRegistry * world :=
  match registry self !! artist_id with
  | None => (Ok false, self, w)
  | Some (JDict entry) =>
      let e1 := set_field "public_key" public_key entry in
      let e2 := set_field "artist_name" artist_name e1 in
      let e3 := set_field "contact_info" contact_info e2 in
      let e4 := set_field "description" description e3 in
      let (now, w1) := datetime_now w in
      let e5 := <["last_updated" := JStr now]> e4 in
      let self' := {| registry_file := registry_file self;
                      registry := <[artist_id := JDict e5]> (registry self) |} in
      match _save_registry self' w1 with
      | (Ok _, w2) => (Ok true, self', w2)
      | (Raise e, w2) => (Raise e, self', w2)
      end
  | Some _ =>
      if py_truthy public_key || py_truthy artist_name
         || py_truthy contact_info || py_truthy description
      then (Raise TypeError, self, w)
      else (Raise TypeError, self, snd (datetime_now w))
  end.

Definition delete_artist (self : KeyRegistry) (artist_id : string) (w : world)
    : result bool * KeyRegistry * world :=
  if bool_decide (is_Some (registry self !! artist_id)) then
    let self' := {| registry_file := registry_file self;
                    registry := delete artist_id (registry self) |} in
    match _save_registry self' w with
    | (Ok _, w1) => (Ok true, self', w1)
    | (Raise e, w1) => (Raise e, self', w1)
    end
  else (Ok false, self, w).

End RegistryOps.

(** ** Authentication tokens (auth.py) *)

(** [str(n)] of an integer, as an f-string prints it. *)
Definition py_str_int (n : Z) : string := NilZero.string_of_int (Z.to_int n).

(** [s[:n]]: the first [n] characters; a character is a byte that is not a
    UTF-8 continuation byte, with the continuation bytes that follow it. *)
Definition is_continuation (c : ascii) : bool :=
  let n := N_of_ascii c in ((128 <=? n) && (n <? 192))%N.

Fixpoint take_chars (n : nat) (s : string) : string :=
  match s with
  | EmptyString => EmptyString
  | String c rest =>
      if is_continuation c then String c (take_chars n rest)
      else match n with
           | O => EmptyString
           | S n' => String c (take_chars n' rest)
           end
  end.

(** The dictionary stored per token. *)
Record token_data : Type := {
  td_artist_id : string;
  td_public_key : string;
  td_created_at : Z;
  td_expires_at : Z
}.

Record ArtistAuth : Type := {
  secret_key : string;
  auth_tokens : gmap string token_data
}.

Section AuthOps.
Context {C : Crypto} {R : Runtime}.

Definition time_time (w : world) : Z := epoch_seconds (clock w).

(** [verify_artist_signature] of [ArtistAuth]: the challenge itself is the
    signed message; [artist_id] is not used. *)
Definition verify_artist_signature (artist_id challenge signature public_key_pem : string)
    : result bool :=
  try_except
    (let? key := load_pem_public_key (encode public_key_pem) in
     let? signature_bytes := b64decode signature in
     let challenge_bytes := encode challenge in
     let? _ := pss_verify key signature_bytes challenge_bytes in
     Ok true)
    (fun _ => Ok false).

Definition create_auth_token (self : ArtistAuth) (artist_id public_key_pem : string)
    (w : world) : string * ArtistAuth :=
  let timestamp := time_time w in
  let token_text :=
    artist_id +:+ "_" +:+ py_str_int timestamp +:+ "_" +:+ take_chars 50 public_key_pem in
  let token := SHA256.hexdigest (encode (token_text +:+ "_" +:+ secret_key self)) in
  let data := {| td_artist_id := artist_id;
                 td_public_key := public_key_pem;
                 td_created_at := timestamp;
                 td_expires_at := timestamp + 24 * 60 * 60 |} in
  (token, {| secret_key := secret_key self;
             auth_tokens := <[token := data]> (auth_tokens self) |}).

Definition verify_auth_token (self : ArtistAuth) (token : string) (w : world)
    : option token_data * ArtistAuth :=
  match auth_tokens self !! token with
  | None => (None, self)
  | Some data =>
      let current_time := time_time w in
      if current_time >? td_expires_at data
      then (None, {| secret_key := secret_key self;
                     auth_tokens := delete token (auth_tokens self) |})
      else (Some data, self)
  end.

Definition revoke_auth_token (self : ArtistAuth) (token : string) : bool * ArtistAuth :=
  if bool_decide (is_Some (auth_tokens self !! token))
  then (true, {| secret_key := secret_key self;
                 auth_tokens := delete token (auth_tokens self) |})
  else (false, self).

Definition is_artist_authorized (self : ArtistAuth) (artist_id token : string) (w : world)
    : bool * ArtistAuth :=
  let (data, self') := verify_auth_token self token w in
  match data with
  | None => (false, self')
  | Some d => (String.eqb (td_artist_id d) artist_id, self')
  end.

End AuthOps.

(** ** Request handlers (main.py) *)

Inductive response : Type :=
  | JSONResponse (status_code : Z) (content : json)
  | FileResponse (path filename media_type : string).

(** The module-level [registry] and [artist_auth] objects. *)
Record app_state : Type := {
  app_registry : KeyRegistry;
  app_auth : ArtistAuth
}.

(** [JSONResponse] renders its content with [allow_nan=False]: a NaN or an
    infinity anywhere in the content raises [ValueError]. *)
Fixpoint finite_value (v : json) : bool :=
  match v with
  | JFloat S754_nan | JFloat (S754_infinity _) => false
  | JList l => forallb finite_value l
  | JDict d => map_fold (fun _ x acc => finite_value x && acc) true d
  | _ => true
  end.

(** The truth value of a JSON value, as [if v:] takes it. *)
Definition py_bool (v : json) : bool :=
  match v with
  | JNull => false
  | JBool b => b
  | JNum z => negb (z =? 0)
  | JFloat x => negb (Np.is_zero x)
  | JStr s => negb (String.eqb s "")
  | JList l => match l with [] => false | _ :: _ => true end
  | JDict d => negb (bool_decide (d = ∅))
  end.

Definition json_response (status_code : Z) (content : gmap string json) : result response :=
  if forallb (fun kv => finite_value (snd kv)) (map_to_list content)
  then Ok (JSONResponse status_code (JDict content))
  else Raise ValueError.

Definition error_response (prefix : string) (message : string) : response :=
  JSONResponse 500 (JDict {[ "error" := JStr (prefix +:+ message) ]}).

Section Handlers.
Context {G : BitGenerator} {C : Crypto} {H : Host} {R : Runtime}.

(** [POST /verify-artist-signature] *)
Definition api_verify_artist_signature (artist_id challenge signature public_key_pem : string)
    (app : app_state) (w : world) : response * app_state :=
  match verify_artist_signature artist_id challenge signature public_key_pem with
  | Ok true =>
      let (auth_token, auth') := create_auth_token (app_auth app) artist_id public_key_pem w in
      (JSONResponse 200
         (JDict (list_to_map
            [ ("authenticated", JBool true);
              ("auth_token", JStr auth_token);
              ("message", JStr "Artist authenticated successfully") ])),
       {| app_registry := app_registry app; app_auth := auth' |})
  | Ok false =>
      (JSONResponse 401
         (JDict (list_to_map
            [ ("authenticated", JBool false);
              ("error", JStr "Invalid signature") ])),
       app)
  | Raise e => (error_response "Failed to verify signature: " (exn_str e), app)
  end.

(** [POST /register-artist] *)
Definition api_register_artist (artist_id public_key_pem : string)
    (artist_name contact_info description auth_token : option string)
    (app : app_state) (w : world) : response * app_state * world :=
  let check :=
    match auth_token with
    | Some token =>
        if String.eqb token "" then (true, app_auth app)
        else is_artist_authorized (app_auth app) artist_id token w
    | None => (true, app_auth app)
    end in
  let (authorized, auth') := check in
  if authorized then
    match register_artist (app_registry app) artist_id public_key_pem
            artist_name contact_info description auth_token w with
    | (Ok true, registry', w') =>
        (JSONResponse 200
           (JDict (list_to_map
              [ ("message", JStr "Artist registered successfully");
                ("artist_id", JStr artist_id) ])),
         {| app_registry := registry'; app_auth := auth' |}, w')
    | (Ok false, registry', w') =>
        (JSONResponse 400 (JDict {[ "error" := JStr "Artist already exists" ]}),
         {| app_registry := registry'; app_auth := auth' |}, w')
    | (Raise e, registry', w') =>
        (error_response "Failed to register artist: " (exn_str e),
         {| app_registry := registry'; app_auth := auth' |}, w')
    end
  else
    (JSONResponse 401
       (JDict {[ "error" := JStr "Invalid or expired authentication token" ]}),
     {| app_registry := app_registry app; app_auth := auth' |}, w).

(** [POST /embed]: the upload is stored under a temporary name, the
    watermarked copy is written beside it, and the upload is removed; when
    embedding raises, the upload stays. *)
Definition api_embed_audio (upload : file) (id_str secret : string) (w : world)
    : response * world :=
  let input_path := temp_path (fs w) ".wav" in
  if writable input_path then
    let w1 := set_fs (<[input_path := upload]> (fs w)) w in
    let output_path := str_replace ".wav" "_marked.wav" input_path in
    match embed_watermark input_path output_path id_str secret w1 with
    | (Ok _, w2) =>
        (FileResponse output_path "marked.wav" "audio/wav",
         set_fs (delete input_path (fs w2)) w2)
    | (Raise e, w2) => (error_response "Failed to embed watermark: " (exn_str e), w2)
    end
  else (error_response "Failed to embed watermark: " (exn_str OSError), w).

(** [POST /verify] *)
Definition api_verify_audio (upload : file) (id_str secret : string) (w : world)
    : response * world :=
  let path := temp_path (fs w) ".wav" in
  if writable path then
    let w1 := set_fs (<[path := upload]> (fs w)) w in
    match detect_watermark path id_str secret w1 with
    | (Ok r, w2) =>
        let verified := fst r in
        let score := snd r in
        let w3 := set_fs (delete path (fs w2)) w2 in
        match json_response 200
                (list_to_map
                   [ ("verified", JBool verified);
                     ("score", JFloat score);
                     ("method", JStr "traditional") ]) with
        | Ok resp => (resp, w3)
        | Raise e => (error_response "Failed to verify watermark: " (exn_str e), w3)
        end
    | (Raise e, w2) => (error_response "Failed to verify watermark: " (exn_str e), w2)
    end
  else (error_response "Failed to verify watermark: " (exn_str OSError), w).

(** [GET /lookup-artist/{artist_id}] *)
Definition api_lookup_artist (artist_id : string) (app : app_state) : response :=
  let not_found :=
    json_response 404
      (list_to_map [ ("found", JBool false); ("error", JStr "Artist not found") ]) in
  let body :=
    match get_artist_key (app_registry app) artist_id with
    | Some artist_info =>
        if py_bool artist_info then
          let? artist_name := py_getitem artist_info "artist_name" in
          let? public_key := py_getitem artist_info "public_key" in
          let? contact_info := py_getitem artist_info "contact_info" in
          let? description := py_getitem artist_info "description" in
          let? registered_at := py_getitem artist_info "registered_at" in
          json_response 200
            (list_to_map
               [ ("found", JBool true);
                 ("artist_id", JStr artist_id);
                 ("artist_name", artist_name);
                 ("public_key", public_key);
                 ("contact_info", contact_info);
                 ("description", description);
                 ("registered_at", registered_at) ])
        else not_found
    | None => not_found
    end in
  match body with
  | Ok resp => resp
  | Raise e => error_response "Failed to lookup artist: " (exn_str e)
  end.

(** [POST /verify-cryptographic]: the upload is stored under a fresh
    temporary name ending in [.wav], checked, and removed; when the check
    raises, the file stays. *)
Definition api_verify_audio_cryptographic (upload : file) (id_str public_key_pem : string)
    (w : world) : response * world :=
  let path := temp_path (fs w) ".wav" in
  if writable path then
    let w1 := set_fs (<[path := upload]> (fs w)) w in
    match detect_watermark_with_signature path id_str public_key_pem w1 with
    | (Ok r, w2) =>
        let verified := fst (fst r) in
        let score := snd (fst r) in
        let signature_valid := snd r in
        let w3 := set_fs (delete path (fs w2)) w2 in
        match json_response 200
                (list_to_map
                   [ ("verified", JBool verified);
                     ("score", JFloat score);
                     ("signature_valid", JBool signature_valid);
                     ("method", JStr "cryptographic") ]) with
        | Ok resp => (resp, w3)
        | Raise e =>
            (error_response "Failed to verify cryptographic watermark: " (exn_str e), w3)
        end
    | (Raise e, w2) =>
        (error_response "Failed to verify cryptographic watermark: " (exn_str e), w2)
    end
  else
    (error_response "Failed to verify cryptographic watermark: " (exn_str OSError), w).

End Handlers.

(** ** Small concrete libraries, for running the model on examples *)

Module Fixture.

(** A linear congruential generator with a fixed table-free transform. *)
Definition lcg_next (g : Z) : spec_float * Z :=
  let g' := (g * 1103515245 + 12345) mod 2 ^ 31 in
  (Np.div64 (Np.of_Z (g' mod 4001 - 2000)) (Np.of_Z 1000), g').

#[export] Instance lcg : BitGenerator :=
  {| bitgen := Z; default_rng := fun seed => seed; next_standard_normal := lcg_next |}.

Definition bytes_eqb (a b : list byte) : bool :=
  bool_decide (map Byte.to_N a = map Byte.to_N b).

(** Keys are their own PEM text; a signature is the key followed by the
    message; the text encoding of a signature is its hexadecimal form. *)
Definition load_key (pem : list byte) : result (list byte) :=
  match pem with [] => Raise ValueError | _ => Ok pem end.

Fixpoint hex_pairs (s : string) : option (list byte) :=
  match s with
  | EmptyString => Some []
  | String c1 (String c2 rest) =>
      match SHA256.hex_value c1, SHA256.hex_value c2, hex_pairs rest with
      | Some h, Some l, Some bs => Some (SHA256.byte_of_Z (16 * h + l) :: bs)
      | _, _, _ => None
      end
  | String _ EmptyString => None
  end.

Definition hex_decode (s : string) : result (list byte) :=
  of_option ValueError (hex_pairs s).

#[export] Instance mac : Crypto :=
  {| private_key := list byte;
     public_key := list byte;
     load_pem_private_key := load_key;
     load_pem_public_key := load_key;
     pss_sign := fun k msg _ => Ok (k ++ msg)%list;
     pss_verify := fun k sg msg =>
       if bytes_eqb sg (k ++ msg)%list
       then Ok tt else Raise InvalidSignature;
     b64encode := fun b => encode (SHA256.hex_of_bytes b);
     b64decode := hex_decode |}.

(** A 32-bit float container: samples are rounded to binary32. *)
Definition round32 (x : spec_float) : spec_float :=
  match x with
  | S754_finite s m e => binary_round 24 128 s m e
  | _ => x
  end.

#[export] Instance host : Host :=
  {| store_sample := round32;
     writable := fun _ => true;
     nan_bits32 := 2143289344;
     py_str := fun _ => "?";
     isoformat := fun n => "2024-01-01T00:00:0" +:+ String (ascii_of_N (48 + n mod 10)) "" |}.

Definition f32 (num den : Z) : spec_float :=
  SFdiv 24 128 (binary_normalize 24 128 num 0 false) (binary_normalize 24 128 den 0 false).

Definition samples5 : list spec_float :=
  [f32 1 2; f32 (-1) 4; f32 1 8; f32 (-1) 1; f32 3 4].

Definition silent3 : list spec_float := [Np.zero; Np.zero; Np.zero].

Definition w0 : world :=
  World (<["in.wav" := FAudio samples5]>
         (<["one.wav" := FAudio [f32 1 2]]>
         (<["silent.wav" := FAudio silent3]> ∅))) 0 0.

(** A record whose signature does not decode. *)
Definition bad_record : gmap string json :=
  list_to_map [ ("watermark_type", JStr "cryptographic");
                ("signature", JStr "zz");
                ("audio_hash", JStr "00") ].

Definition w_bad : world :=
  set_fs (<["in_metadata.json" := FJson (JDict bad_record)]> (fs w0)) w0.

(** The world after a signed embedding of ["in.wav"]. *)
Definition w_signed : world :=
  snd (embed_watermark_with_signature "in.wav" "out.wav" "artist_1" "KEY" w0).

Definition tampered : list spec_float := [f32 1 4; f32 1 2].

Definition registry0 : KeyRegistry :=
  {| registry_file := "watermark/registry.json";
     registry := <["artist_1" := JDict (<["public_key" := JStr "OLD"]> ∅)]> ∅ |}.

End Fixture.

(** ** Further concrete values for running the added models *)

Module Scenario.

(** A host on which the record of ["out.wav"] cannot be written. *)
Definition host_locked : Host :=
  {| store_sample := Fixture.round32;
     writable := fun p => negb (String.eqb p "out_metadata.json");
     nan_bits32 := nan_bits32 (Host := Fixture.host);
     py_str := py_str (Host := Fixture.host);
     isoformat := isoformat (Host := Fixture.host) |}.

#[export] Instance runtime : Runtime :=
  {| epoch_seconds := Z.of_N;
     exn_str := fun _ => "error";
     temp_path := fun _ suffix => "/tmp/tmpa1b2c3" +:+ suffix;
     decodes_as_text := fun f => match f with FAudio _ => false | _ => true end |}.

(** The world after a signed embedding, with the audio replaced. *)
Definition w_tampered : world :=
  set_fs (<["out.wav" := FAudio Fixture.tampered]> (fs Fixture.w_signed)) Fixture.w_signed.

(** A registry whose file has no directory part. *)
Definition registry_flat : KeyRegistry :=
  {| registry_file := "registry.json"; registry := ∅ |}.

Definition auth0 : ArtistAuth :=
  {| secret_key := "audio_auth_secret_key_2024"; auth_tokens := ∅ |}.

Definition app0 : app_state :=
  {| app_registry := Fixture.registry0; app_auth := auth0 |}.

(** Two PEM texts that differ only after their first 50 characters. *)
Definition pem_a : string :=
  "-----BEGIN PUBLIC KEY-----MIIBIjANBgkqhkiG9w0BAQEFAAOCAQ8AMIIBCgKCAQEAaaaa".
Definition pem_b : string :=
  "-----BEGIN PUBLIC KEY-----MIIBIjANBgkqhkiG9w0BAQEFAAOCAQ8AMIIBCgKCAQEAbbbb".



(** The text form of the signature of a challenge under the key ["KEY"]. *)
Definition signed_challenge : string :=
  decode (b64encode (Crypto := Fixture.mac) (encode "KEY" ++ encode "any text")%list).

End Scenario.

(** * Properties *)

(** ** SHA-256: test vectors, digest size, and the integer read back from
    the hexadecimal digest *)

Example sha256_abc :
  SHA256.hexdigest (encode "abc")
  = "ba7816bf8f01cfea414140de5dae2223b00361a396177a9cb410ff61f20015ad".
Proof. vm_compute. reflexivity. Qed.

Example sha256_empty :
  SHA256.hexdigest []
  = "e3b0c44298fc1c149afbf4c8996fb92427ae41e4649b934ca495991b7852b855".
Proof. vm_compute. reflexivity. Qed.

Example sha256_two_blocks :
  SHA256.hexdigest (encode "abcdbcdecdefdefgefghfghighijhijkijkljklmklmnlmnomnopnopq")
  = "248d6a61d20638b8e5c026930c3e6039a33ce45964ff2167f6ecedd419db06c1".
Proof. vm_compute. reflexivity. Qed.

Example alpha_is_nearest : alpha = Np.div64 Np.one (Np.of_Z 1000).
Proof. vm_compute. reflexivity. Qed.

Module SHA256Facts.
Import SHA256.

Lemma sha256_length (msg : list byte) : length (sha256 msg) = 32%nat.
Proof. reflexivity. Qed.

Lemma byte_val_range (b : byte) : 0 <= byte_val b < 256.
Proof.
  unfold byte_val. pose proof (Byte.to_N_bounded b). lia.
Qed.

Lemma hex_value_digit (n : Z) : 0 <= n < 16 -> hex_value (hex_digit n) = Some n.
Proof.
  intros [Hlo Hhi]. rewrite <- (Z2Nat.id n Hlo).
  assert (Z.to_nat n < 16)%nat as Hk by lia.
  revert Hk. generalize (Z.to_nat n) as k. intros k Hk.
  do 16 (destruct k as [| k]; [reflexivity |]). lia.
Qed.

Lemma int16_from_hex (bs : list byte) (acc : Z) :
  int16_from acc (hex_of_bytes bs)
  = Some (fold_left (fun a b => a * 256 + byte_val b) bs acc).
Proof.
  revert acc. induction bs as [| b bs IH]; intros acc; [reflexivity |].
  pose proof (byte_val_range b) as Hb.
  cbn [hex_of_bytes int16_from fold_left].
  rewrite hex_value_digit by (split; [apply Z.div_pos | apply Z.div_lt_upper_bound]; lia).
  rewrite hex_value_digit by (apply Z.mod_pos_bound; lia).
  rewrite IH. do 2 f_equal.
  pose proof (Z.div_mod (byte_val b) 16). lia.
Qed.

Lemma int16_hex (bs : list byte) : bs <> [] -> int16 (hex_of_bytes bs) = Some (be_int bs).
Proof.
  intros Hne. destruct bs as [| b bs]; [congruence |].
  unfold int16, be_int. rewrite <- int16_from_hex. reflexivity.
Qed.

Lemma be_int_range (bs : list byte) : 0 <= be_int bs < 256 ^ Z.of_nat (length bs).
Proof.
  unfold be_int.
  enough (forall acc n, 0 <= acc < 256 ^ n -> 0 <= n ->
            0 <= fold_left (fun a b => a * 256 + byte_val b) bs acc
              < 256 ^ (n + Z.of_nat (length bs))) as Hgen.
  { apply (Hgen 0 0); lia. }
  induction bs as [| b bs IH]; intros acc n Hacc Hn.
  - cbn [fold_left length]. rewrite Z.add_0_r. exact Hacc.
  - cbn [fold_left length]. pose proof (byte_val_range b) as Hb.
    replace (n + Z.of_nat (S (length bs))) with ((n + 1) + Z.of_nat (length bs)) by lia.
    apply IH; [| lia].
    rewrite Z.pow_add_r by lia. rewrite Z.pow_1_r. nia.
Qed.

End SHA256Facts.

Global Opaque SHA256.sha256.

(** ** numpy arithmetic: how NaN and infinities travel *)

Module NpFacts.
Import Np.

Lemma add64_nan_l x : add64 nan x = nan.
Proof. reflexivity. Qed.















End NpFacts.

(** The bit patterns of some binary32 values, as in the IEEE-754 tables. *)
Example bits32_values :
  Np.bits32 0 (S754_finite false 8388608 (-23)) = 1065353216 /\
  Np.bits32 0 (S754_finite true 8388608 (-24)) = 3204448256 /\
  Np.bits32 0 (S754_finite false 1 (-149)) = 1 /\
  Np.bits32 0 (S754_infinity false) = 2139095040 /\
  Np.tobytes 0 [S754_finite false 8388608 (-23)] = ["000"%byte; "000"%byte; "128"%byte; "?"%byte].
Proof. vm_compute. repeat split; reflexivity. Qed.

Lemma leb_not_nan (a b : spec_float) : SFleb a b = true -> Np.isnan b = false.
Proof. destruct b; try reflexivity. destruct a; discriminate. Qed.

(** A clipped correlation, with NaN replaced by zero, lies in [-1, 1]. *)
Lemma clipped_in_range (x : spec_float) :
  let c := Np.nan_to_zero (Np.clip x (SFopp Np.one) Np.one) in
  Np.isnan c = false /\ SFleb (SFopp Np.one) c = true /\ SFleb c Np.one = true.
Proof.
  cbv zeta. unfold Np.clip, Np.maximum.
  destruct (SFleb (SFopp Np.one) x) eqn:Hlo; cbn [orb].
  - pose proof (leb_not_nan _ _ Hlo) as Hx.
    unfold Np.minimum. rewrite Hx, orb_false_r.
    destruct (SFleb x Np.one) eqn:Hhi.
    + unfold Np.nan_to_zero. rewrite Hx. auto.
    + repeat split; reflexivity.
  - destruct (Np.isnan x) eqn:Hx; [| repeat split; reflexivity].
    destruct x; try discriminate Hx. repeat split; reflexivity.
Qed.

(** ** The watermark core *)

Section CoreFacts.
Context {G : BitGenerator} {C : Crypto} {H : Host}.

Lemma bind_ok {A B : Type} (m : M A) (k : A -> M B) (w w' : world) (a : A) :
  m w = (Ok a, w') -> bind m k w = k a w'.
Proof. intros Hm. unfold bind. rewrite Hm. reflexivity. Qed.

Lemma bind_raise {A B : Type} (m : M A) (k : A -> M B) (w w' : world) (e : exn) :
  m w = (Raise e, w') -> bind m k w = (Raise e, w').
Proof. intros Hm. unfold bind. rewrite Hm. reflexivity. Qed.

Lemma librosa_load_audio (w : world) (path : string) (y : list spec_float) :
  fs w !! path = Some (FAudio y) -> librosa_load path w = (Ok y, w).
Proof. intros Hf. unfold librosa_load. rewrite Hf. reflexivity. Qed.

Lemma normalize_empty : normalize [] = Raise ValueError.
Proof. reflexivity. Qed.

Lemma normalize_nonempty (y : list spec_float) :
  y <> [] ->
  exists peak, Np.amax (map SFabs y) = Ok peak /\
               normalize y = Ok (map (fun x => Np.div32 x peak) y).
Proof.
  intros Hne. destruct y as [| x y]; [congruence |].
  unfold normalize. cbn [map Np.amax rbind]. eauto.
Qed.

Lemma normalize_length (y yn : list spec_float) :
  normalize y = Ok yn -> length yn = length y.
Proof.
  unfold normalize. destruct (Np.amax (map SFabs y)) as [peak |]; [| discriminate].
  cbn [rbind]. intros [= <-]. apply length_map.
Qed.

Lemma pattern_seed_ok (material : string) :
  pattern_seed material = Ok (sha256_int material mod 2 ^ 32).
Proof.
  unfold pattern_seed, sha256_int, SHA256.hexdigest.
  rewrite SHA256Facts.int16_hex; [reflexivity |].
  intros Hnil. pose proof (SHA256Facts.sha256_length (encode material)) as Hlen.
  rewrite Hnil in Hlen. discriminate Hlen.
Qed.

Lemma standard_normal_length (g : bitgen) (n : nat) :
  length (fst (standard_normal g n)) = n.
Proof.
  revert g. induction n as [| n IH]; intros g; [reflexivity |].
  cbn [standard_normal]. destruct (next_standard_normal g) as [x g'].
  specialize (IH g'). destruct (standard_normal g' n) as [xs g''].
  cbn [fst length] in *. congruence.
Qed.

Lemma generate_pattern_length (seed : Z) (n : nat) :
  length (generate_pattern seed n) = n.
Proof. apply standard_normal_length. Qed.

Lemma correlation_defined (y p : list spec_float) :
  length y = length p ->
  exists c, Np.corrcoef01 y p = Ok c /\
            correlation y p = Ok (Np.nan_to_zero c).
Proof.
  intros Hlen. unfold correlation, Np.corrcoef01.
  rewrite Hlen, Nat.eqb_refl. cbn [rbind]. eauto.
Qed.

Lemma correlation_not_nan (y p : list spec_float) (corr : spec_float) :
  correlation y p = Ok corr -> Np.isnan corr = false.
Proof.
  unfold correlation. destruct (Np.corrcoef01 y p) as [c |]; [| discriminate].
  cbn [rbind]. intros [= <-]. destruct c; reflexivity.
Qed.

(** What [embed_watermark] does once the input is loaded and normalized. *)
Lemma embed_watermark_run (w : world) (input_path output_path id_str secret : string)
    (y yn : list spec_float) :
  fs w !! input_path = Some (FAudio y) ->
  normalize y = Ok yn ->
  embed_watermark input_path output_path id_str secret w =
    if writable output_path
    then (Ok output_path,
          set_fs (<[output_path := FAudio (map store_sample
                     (mix yn (generate_pattern (sha256_int (id_str +:+ secret) mod 2 ^ 32)
                                               (length yn))))]> (fs w)) w)
    else (Raise LibraryError, w).
Proof.
  intros Hfile Hnorm. unfold embed_watermark.
  rewrite (bind_ok _ _ _ _ _ (librosa_load_audio _ _ _ Hfile)).
  unfold bind at 1, lift at 1. rewrite Hnorm.
  unfold bind at 1, lift at 1. rewrite pattern_seed_ok.
  unfold bind, sf_write, ret. destruct (writable output_path); reflexivity.
Qed.

(** What [detect_watermark] does once the candidate is loaded and
    normalized. *)
Lemma detect_watermark_run (w : world) (audio_path id_str secret : string)
    (y yn : list spec_float) :
  fs w !! audio_path = Some (FAudio y) ->
  normalize y = Ok yn ->
  detect_watermark audio_path id_str secret w =
    match correlation yn (generate_pattern (sha256_int (id_str +:+ secret) mod 2 ^ 32)
                                           (length yn)) with
    | Ok corr => (Ok (Np.gt corr threshold, corr), w)
    | Raise e => (Raise e, w)
    end.
Proof.
  intros Hfile Hnorm. unfold detect_watermark.
  rewrite (bind_ok _ _ _ _ _ (librosa_load_audio _ _ _ Hfile)).
  unfold bind at 1, lift at 1. rewrite Hnorm.
  unfold bind at 1, lift at 1. rewrite pattern_seed_ok.
  unfold bind, lift, ret.
  destruct (correlation _ _); reflexivity.
Qed.

End CoreFacts.

(** ** Signatures and the signed detector *)

Section SignedFacts.
Context {G : BitGenerator} {C : Crypto} {H : Host}.

Lemma verify_signature_true (artist_id : string) (data signature : json) (pem : string) :
  verify_signature artist_id data signature pem = Ok true <->
  exists key bytes,
    load_pem_public_key (encode pem) = Ok key /\
    b64decode_value signature = Ok bytes /\
    pss_verify key bytes (signed_message artist_id data) = Ok tt.
Proof.
  unfold verify_signature, try_except.
  destruct (load_pem_public_key (encode pem)) as [key | e1] eqn:Hkey; cbn [rbind].
  2: { split; [discriminate | intros (k & b & Hk & _); discriminate Hk]. }
  destruct (b64decode_value signature) as [bytes | e2] eqn:Hsig; cbn [rbind].
  2: { split; [discriminate | intros (k & b & _ & Hb & _); discriminate Hb]. }
  destruct (pss_verify key bytes (signed_message artist_id data)) as [[] | e3] eqn:Hver;
    cbn [rbind].
  - split; [intros _; eauto | reflexivity].
  - split; [discriminate |].
    intros (k & b & [= <-] & [= <-] & Hv). rewrite Hver in Hv. discriminate Hv.
Qed.

Lemma verify_signature_total (artist_id : string) (data signature : json) (pem : string) :
  exists b, verify_signature artist_id data signature pem = Ok b.
Proof.
  unfold verify_signature, try_except.
  destruct (load_pem_public_key (encode pem)); cbn [rbind]; [| eauto].
  destruct (b64decode_value signature); cbn [rbind]; [| eauto].
  destruct (pss_verify _ _ _); cbn [rbind]; eauto.
Qed.

Lemma verified_signature_is_text (artist_id : string) (data signature : json) (pem : string) :
  verify_signature artist_id data signature pem = Ok true ->
  exists s, signature = JStr s.
Proof.
  intros Hv. apply verify_signature_true in Hv as (key & bytes & _ & Hb & _).
  destruct signature; try discriminate Hb. eauto.
Qed.

(** The [try] block on a bound [metadata] never escapes its handler, and
    reports a valid signature only for a cryptographic record whose stored
    fields verify. *)
Lemma check_metadata_handled (metadata : json) (id_str pem : string) :
  exists sv : bool,
    try_except (check_metadata metadata id_str pem) (fun _ => Ok (false, Np.zero))
    = Ok (sv, if sv then Np.one else Np.zero) /\
    (sv = true <->
     exists d, metadata = JDict d /\
               d !! "watermark_type" = Some (JStr "cryptographic") /\
               verify_watermark_signature id_str (record_field d "audio_hash")
                 (record_field d "signature") pem = Ok true).
Proof.
  unfold check_metadata.
  destruct metadata as [| b | z | x | s | l | d];
    try (exists false; split; [reflexivity |];
         split; [discriminate | intros (d' & Hd & _); discriminate Hd]).
  cbn [py_get rbind].
  destruct (d !! "watermark_type") as [kind |] eqn:Hkind.
  2: { exists false. split; [reflexivity |].
       split; [discriminate | intros (d' & [= <-] & Hk & _); congruence]. }
  destruct (py_eq_str kind "cryptographic") eqn:Heq.
  - assert (kind = JStr "cryptographic") as ->.
    { destruct kind; try discriminate Heq. cbn in Heq.
      apply String.eqb_eq in Heq. congruence. }
    fold (record_field d "audio_hash"). fold (record_field d "signature").
    destruct (verify_signature_total id_str (record_field d "audio_hash")
                (record_field d "signature") pem) as [b Hb].
    unfold verify_watermark_signature. rewrite Hb. cbn [rbind try_except].
    exists b. split; [reflexivity |]. split.
    + intros ->. exists d. auto.
    + intros (d' & [= <-] & _ & Hv). congruence.
  - exists false. split; [reflexivity |].
    split; [discriminate |].
    intros (d' & [= <-] & Hk & _). rewrite Hkind in Hk. injection Hk as ->.
    vm_compute in Heq. discriminate Heq.
Qed.

(** The metadata step returns normally in every world and leaves it
    unchanged. *)
Lemma read_signature_run (metadata_path id_str pem : string) (w : world) :
  exists (md : option json) (sv : bool),
    read_signature metadata_path id_str pem w
    = (Ok (md, sv, if sv then Np.one else Np.zero), w) /\
    (fs w !! metadata_path = None -> sv = false) /\
    (sv = true <->
     exists d, fs w !! metadata_path = Some (FJson (JDict d)) /\
               d !! "watermark_type" = Some (JStr "cryptographic") /\
               verify_watermark_signature id_str (record_field d "audio_hash")
                 (record_field d "signature") pem = Ok true) /\
    (sv = true -> exists d, md = Some (JDict d) /\
                            fs w !! metadata_path = Some (FJson (JDict d))).
Proof.
  unfold read_signature, os_path_exists, bind at 1.
  destruct (fs w !! metadata_path) as [f |] eqn:Hf.
  2: { rewrite bool_decide_eq_false_2 by (intros [? ?]; discriminate).
       exists None, false. unfold ret.
       repeat split; try discriminate; try reflexivity.
       intros (d & Hd & _). discriminate Hd. }
  rewrite bool_decide_eq_true_2 by eauto.
  unfold Mtry, bind at 1, json_load. rewrite Hf.
  destruct f as [samples | j |].
  1, 3: exists None, false; unfold ret;
        repeat split; try discriminate;
        intros (d & Hd & _); discriminate Hd.
  destruct (check_metadata_handled j id_str pem) as (sv & Hrun & Hsv).
  unfold bind, lift, ret. rewrite Hrun. cbn [fst snd].
  exists (Some j), sv. repeat split.
  - discriminate.
  - intros Htrue. apply Hsv in Htrue as (d & -> & Hk & Hv). eauto.
  - intros (d & [= ->] & Hk & Hv). apply Hsv. eauto.
  - intros Htrue. apply Hsv in Htrue as (d & -> & _). eauto.
Qed.

(** The seed material the signed detector ends up using. *)
Lemma detection_seed_run (md : option json) (sv : bool) (id_str pem : string) :
  (sv = true -> exists d, md = Some (JDict d) /\
                          verify_watermark_signature id_str (record_field d "audio_hash")
                            (record_field d "signature") pem = Ok true) ->
  exists material,
    detection_seed md sv id_str = Ok (sha256_int material mod 2 ^ 32) /\
    (sv = false -> material = id_str +:+ "fallback") /\
    (sv = true -> forall d, md = Some (JDict d) ->
       material = match d !! "signature" with
                  | Some (JStr s) => id_str +:+ s
                  | _ => id_str +:+ "fallback"
                  end).
Proof.
  intros Hsv. unfold detection_seed. destruct sv.
  - destruct (Hsv eq_refl) as (d & -> & Hv).
    cbn [py_contains rbind of_option py_getitem].
    destruct (d !! "signature") as [v |] eqn:Hsig.
    + rewrite bool_decide_eq_true_2 by eauto. cbn [rbind of_option].
      apply verified_signature_is_text in Hv as [s Hs].
      unfold record_field in Hs. rewrite Hsig in Hs. subst v.
      cbn [py_str_add rbind]. exists (id_str +:+ s).
      split; [apply pattern_seed_ok |]. split; [discriminate |].
      intros _ d' [= <-]. rewrite Hsig. reflexivity.
    + rewrite bool_decide_eq_false_2 by (intros [? ?]; discriminate).
      exists (id_str +:+ "fallback").
      split; [apply pattern_seed_ok |]. split; [reflexivity |].
      intros _ d' [= <-]. rewrite Hsig. reflexivity.
  - cbn [rbind]. exists (id_str +:+ "fallback").
    split; [apply pattern_seed_ok |]. split; [reflexivity | discriminate].
Qed.

(** What [detect_watermark_with_signature] does once the candidate is
    loaded and normalized. *)
Lemma detect_signed_run (w : world) (audio_path id_str pem : string)
    (y yn : list spec_float) :
  fs w !! audio_path = Some (FAudio y) ->
  normalize y = Ok yn ->
  exists (sv : bool) (material : string) (c : spec_float),
    Np.corrcoef01 yn (generate_pattern (sha256_int material mod 2 ^ 32) (length yn)) = Ok c /\
    detect_watermark_with_signature audio_path id_str pem w
    = (Ok (sv && Np.gt (Np.nan_to_zero c) threshold,
           Np.div64 (Np.add64 (Np.nan_to_zero c) (if sv then Np.one else Np.zero)) Np.two,
           sv), w) /\
    (sv = true <->
     exists d, fs w !! metadata_path_of audio_path = Some (FJson (JDict d)) /\
               d !! "watermark_type" = Some (JStr "cryptographic") /\
               verify_watermark_signature id_str (record_field d "audio_hash")
                 (record_field d "signature") pem = Ok true) /\
    (sv = false -> material = id_str +:+ "fallback") /\
    (sv = true -> forall d,
       fs w !! metadata_path_of audio_path = Some (FJson (JDict d)) ->
       material = match d !! "signature" with
                  | Some (JStr s) => id_str +:+ s
                  | _ => id_str +:+ "fallback"
                  end).
Proof.
  intros Hfile Hnorm. unfold detect_watermark_with_signature.
  rewrite (bind_ok _ _ _ _ _ (librosa_load_audio _ _ _ Hfile)).
  unfold bind at 1, lift at 1. rewrite Hnorm.
  destruct (read_signature_run (metadata_path_of audio_path) id_str pem w)
    as (md & sv & Hrs & _ & Hiff & Hmd).
  rewrite (bind_ok _ _ _ _ _ Hrs). cbn [fst snd].
  destruct (detection_seed_run md sv id_str pem) as (material & Hseed & Hfb & Hsig).
  { intros Htrue. destruct (Hmd Htrue) as (d & -> & Hd).
    apply Hiff in Htrue as (d' & Hd' & _ & Hv).
    rewrite Hd in Hd'. injection Hd' as <-. eauto. }
  unfold bind at 1, lift at 1. rewrite Hseed.
  destruct (correlation_defined yn
              (generate_pattern (sha256_int material mod 2 ^ 32) (length yn)))
    as (c & Hc & Hcorr).
  { symmetry. apply generate_pattern_length. }
  unfold bind, lift, ret. rewrite Hcorr.
  exists sv, material, c.
  split; [exact Hc |]. split; [reflexivity |].
  split; [exact Hiff |]. split; [exact Hfb |].
  intros Htrue d Hd. destruct (Hmd Htrue) as (d' & -> & Hd').
  rewrite Hd in Hd'. injection Hd' as <-. apply (Hsig Htrue). reflexivity.
Qed.

Lemma sign_watermark_run (w : world) (artist_id data pem : string)
    (key : private_key) (signature : list byte) :
  load_pem_private_key (encode pem) = Ok key ->
  pss_sign key (signed_message artist_id (JStr data)) (entropy w) = Ok signature ->
  create_watermark_signature artist_id data pem w
  = (Ok (decode (b64encode signature)), World (fs w) (N.succ (entropy w)) (clock w)).
Proof.
  intros Hkey Hsign. unfold create_watermark_signature, sign_watermark.
  unfold bind, lift. rewrite Hkey, Hsign. reflexivity.
Qed.

End SignedFacts.

(** ** Silent signals and signed embedding *)

Section MoreFacts.
Context {G : BitGenerator} {C : Crypto} {H : Host}.





(** What [embed_watermark_with_signature] does once the input is loaded
    and normalized and the key signs. *)
Lemma embed_signed_run (w : world) (input_path output_path id_str pem : string)
    (y yn : list spec_float) (key : private_key) (signature : list byte) :
  fs w !! input_path = Some (FAudio y) ->
  normalize y = Ok yn ->
  load_pem_private_key (encode pem) = Ok key ->
  pss_sign key
    (signed_message id_str (JStr (SHA256.hexdigest (Np.tobytes nan_bits32 yn))))
    (entropy w) = Ok signature ->
  writable output_path = true ->
  writable (metadata_path_of output_path) = true ->
  embed_watermark_with_signature input_path output_path id_str pem w
  = (Ok output_path,
     World (<[metadata_path_of output_path :=
                FJson (provenance_record id_str (decode (b64encode signature))
                         (SHA256.hexdigest (Np.tobytes nan_bits32 yn)))]>
            (<[output_path :=
                 FAudio (map store_sample
                   (mix yn (generate_pattern
                              (sha256_int (id_str +:+ decode (b64encode signature)) mod 2 ^ 32)
                              (length yn))))]> (fs w)))
           (N.succ (entropy w)) (clock w)).
Proof.
  intros Hf Hn Hkey Hsign Hw1 Hw2. unfold embed_watermark_with_signature.
  rewrite (bind_ok _ _ _ _ _ (librosa_load_audio _ _ _ Hf)).
  unfold bind at 1, lift at 1. rewrite Hn.
  rewrite (bind_ok _ _ _ _ _ (sign_watermark_run _ _ _ _ _ _ Hkey Hsign)).
  unfold bind at 1, lift at 1. rewrite pattern_seed_ok.
  unfold bind, sf_write, json_dump, ret. rewrite Hw1, Hw2. reflexivity.
Qed.

End MoreFacts.

(** ** The claims of the specification *)

Section Claims.
Context {G : BitGenerator} {C : Crypto} {H : Host}.

(** C1. Pattern generation is deterministic: for every identity, key
    material and length, the generator run inside [embed_watermark] and the
    one run inside [detect_watermark] (in any two worlds, on signals of the
    same length) produce one and the same sample sequence: the sequence
    mixed into the output is the sequence the detector correlates
    against. *)
Theorem pattern_reproducible (w1 w2 : world)
    (input_path output_path audio_path id_str secret : string)
    (y1 y2 : list spec_float) :
  fs w1 !! input_path = Some (FAudio y1) ->
  fs w2 !! audio_path = Some (FAudio y2) ->
  y1 <> [] ->
  length y1 = length y2 ->
  writable output_path = true ->
  exists (seed : Z) (pattern yn1 yn2 : list spec_float) (corr : spec_float),
    pattern_seed (id_str +:+ secret) = Ok seed /\
    pattern = fst (standard_normal (default_rng seed) (length y1)) /\
    pattern = fst (standard_normal (default_rng seed) (length y2)) /\
    normalize y1 = Ok yn1 /\
    normalize y2 = Ok yn2 /\
    embed_watermark input_path output_path id_str secret w1
    = (Ok output_path,
       set_fs (<[output_path := FAudio (map store_sample (mix yn1 pattern))]> (fs w1)) w1) /\
    correlation yn2 pattern = Ok corr /\
    detect_watermark audio_path id_str secret w2 = (Ok (Np.gt corr threshold, corr), w2).
Proof.
  intros Hf1 Hf2 Hne Hlen Hwr.
  destruct (normalize_nonempty y1 Hne) as (peak1 & _ & Hn1).
  assert (y2 <> []) as Hne2 by (intros ->; destruct y1; [congruence | discriminate Hlen]).
  destruct (normalize_nonempty y2 Hne2) as (peak2 & _ & Hn2).
  pose proof (normalize_length _ _ Hn1) as Hl1.
  pose proof (normalize_length _ _ Hn2) as Hl2.
  set (seed := sha256_int (id_str +:+ secret) mod 2 ^ 32).
  destruct (correlation_defined (map (fun x => Np.div32 x peak2) y2)
              (generate_pattern seed (length y2))) as (c & _ & Hcorr).
  { rewrite generate_pattern_length. exact Hl2. }
  exists seed, (generate_pattern seed (length y1)),
    (map (fun x => Np.div32 x peak1) y1), (map (fun x => Np.div32 x peak2) y2),
    (Np.nan_to_zero c).
  split; [apply pattern_seed_ok |]. split; [reflexivity |].
  split; [rewrite Hlen; reflexivity |].
  split; [exact Hn1 |]. split; [exact Hn2 |]. split.
  - rewrite (embed_watermark_run _ _ _ _ _ _ _ Hf1 Hn1), Hwr, Hl1. reflexivity.
  - split; [rewrite Hlen; exact Hcorr |].
    rewrite (detect_watermark_run _ _ _ _ _ _ Hf2 Hn2), Hl2. fold seed.
    rewrite Hcorr. reflexivity.
Qed.


(** C4. The pattern generator hashes [identity + keyMaterial] with
    SHA-256 (a 32-byte, 256-bit digest), reads the digest as an unsigned
    integer, reduces it modulo 2^32 to a 32-bit seed, initializes the
    generator with that seed and draws exactly as many samples as the
    signal has: the pattern used by [embed_watermark] and
    [detect_watermark] has the length of the signal. *)
Theorem pattern_algorithm (w : world) (input_path output_path id_str secret : string)
    (y : list spec_float) :
  fs w !! input_path = Some (FAudio y) ->
  y <> [] ->
  writable output_path = true ->
  let digest := SHA256.sha256 (encode (id_str +:+ secret)) in
  let seed := SHA256.be_int digest mod 2 ^ 32 in
  let pattern := fst (standard_normal (default_rng seed) (length y)) in
  length digest = 32%nat /\
  0 <= SHA256.be_int digest < 2 ^ 256 /\
  SHA256.int16 (SHA256.hexdigest (encode (id_str +:+ secret))) = Some (SHA256.be_int digest) /\
  pattern_seed (id_str +:+ secret) = Ok seed /\
  0 <= seed < 2 ^ 32 /\
  length pattern = length y /\
  exists yn,
    normalize y = Ok yn /\
    embed_watermark input_path output_path id_str secret w
    = (Ok output_path,
       set_fs (<[output_path := FAudio (map store_sample (mix yn pattern))]> (fs w)) w) /\
    detect_watermark input_path id_str secret w
    = match correlation yn pattern with
      | Ok corr => (Ok (Np.gt corr threshold, corr), w)
      | Raise e => (Raise e, w)
      end.
Proof.
  intros Hf Hne Hwr digest seed pattern.
  destruct (normalize_nonempty y Hne) as (peak & _ & Hn).
  pose proof (normalize_length _ _ Hn) as Hl.
  split; [reflexivity |]. split.
  { pose proof (SHA256Facts.be_int_range digest) as Hr.
    replace (256 ^ Z.of_nat (length digest)) with (2 ^ 256) in Hr; [exact Hr |].
    subst digest. rewrite SHA256Facts.sha256_length. reflexivity. }
  split.
  { apply SHA256Facts.int16_hex. intros Hnil.
    pose proof (SHA256Facts.sha256_length (encode (id_str +:+ secret))) as Hlen.
    fold digest in Hlen. rewrite Hnil in Hlen. discriminate Hlen. }
  split; [rewrite pattern_seed_ok; unfold sha256_int; reflexivity |].
  split; [apply Z.mod_pos_bound; reflexivity |].
  split; [apply standard_normal_length |].
  eexists. split; [exact Hn |]. split.
  - rewrite (embed_watermark_run _ _ _ _ _ _ _ Hf Hn), Hwr, Hl.
    unfold generate_pattern, sha256_int. reflexivity.
  - rewrite (detect_watermark_run _ _ _ _ _ _ Hf Hn), Hl.
    unfold generate_pattern, sha256_int. reflexivity.
Qed.


(** C5 (amended).  When no metadata file exists for the candidate, signed
    detection reports no distinct outcome: it proceeds with the fallback
    pattern and returns [(False, corr / 2, False)], where [corr] is what
    the unsigned detector computes with the secret ["fallback"]; it raises
    exactly when that detector raises. *)
Theorem missing_record_falls_back (w : world) (audio_path id_str pem : string) :
  fs w !! metadata_path_of audio_path = None ->
  detect_watermark_with_signature audio_path id_str pem w
  = match detect_watermark audio_path id_str "fallback" w with
    | (Ok (_, corr), w') =>
        (Ok (false, Np.div64 (Np.add64 corr Np.zero) Np.two, false), w')
    | (Raise e, w') => (Raise e, w')
    end.
Proof.
  intros Hmissing.
  destruct (fs w !! audio_path) as [f |] eqn:Hf.
  2: { unfold detect_watermark_with_signature, detect_watermark, bind, librosa_load.
       rewrite Hf. reflexivity. }
  destruct f as [y | j |];
    try (unfold detect_watermark_with_signature, detect_watermark, bind, librosa_load;
         rewrite Hf; reflexivity).
  destruct (normalize y) as [yn | e] eqn:Hn.
  2: { unfold detect_watermark_with_signature, detect_watermark, bind, librosa_load, lift.
       rewrite Hf, Hn. reflexivity. }
  destruct (detect_signed_run w audio_path id_str pem y yn Hf Hn)
    as (sv & material & c & Hc & Hrun & Hiff & Hfb & _).
  assert (sv = false) as ->.
  { destruct sv; [| reflexivity].
    destruct (proj1 Hiff eq_refl) as (d & Hd & _). congruence. }
  rewrite (Hfb eq_refl) in Hc.
  rewrite Hrun, (detect_watermark_run _ _ _ _ _ _ Hf Hn).
  unfold correlation. rewrite Hc. reflexivity.
Qed.

(** C6 (amended).  Signed detection verifies the signature against the
    fingerprint stored in the record, never against one recomputed from the
    candidate: when the stored fields of the record next to an audio file
    verify under the given public key, then whatever non-empty samples
    replace the audio (a tampered file), the detector reports
    [signatureValid = true].  For a tampered file without samples it
    reports nothing: normalization raises [ValueError] before the record is
    read. *)
Theorem tampered_audio_keeps_signature (w : world) (audio_path id_str pem : string)
    (y y' : list spec_float) (d : gmap string json) :
  fs w !! audio_path = Some (FAudio y) ->
  fs w !! metadata_path_of audio_path = Some (FJson (JDict d)) ->
  d !! "watermark_type" = Some (JStr "cryptographic") ->
  verify_watermark_signature id_str (record_field d "audio_hash")
    (record_field d "signature") pem = Ok true ->
  let w' := set_fs (<[audio_path := FAudio y']> (fs w)) w in
  (y' <> [] ->
   exists verified score,
     detect_watermark_with_signature audio_path id_str pem w'
     = (Ok (verified, score, true), w')) /\
  (y' = [] ->
   detect_watermark_with_signature audio_path id_str pem w' = (Raise ValueError, w')) /\
  (forall verified score signature_valid,
     fst (detect_watermark_with_signature audio_path id_str pem w')
     = Ok (verified, score, signature_valid) ->
     signature_valid = true).
Proof.
  intros Hf Hmd Hkind Hver w'.
  assert (metadata_path_of audio_path <> audio_path) as Hdiff.
  { intros Heq. rewrite Heq, Hf in Hmd. discriminate Hmd. }
  assert (fs w' !! audio_path = Some (FAudio y')) as Hf'.
  { subst w'. cbn [set_fs fs]. apply lookup_insert_eq. }
  assert (fs w' !! metadata_path_of audio_path = Some (FJson (JDict d))) as Hmd'.
  { subst w'. cbn [set_fs fs]. rewrite lookup_insert_ne by congruence. exact Hmd. }
  assert (y' <> [] ->
          exists verified score,
            detect_watermark_with_signature audio_path id_str pem w'
            = (Ok (verified, score, true), w')) as Hreport.
  { intros Hne.
    destruct (normalize_nonempty y' Hne) as (peak & _ & Hn).
    destruct (detect_signed_run w' audio_path id_str pem y' _ Hf' Hn)
      as (sv & material & c & _ & Hrun & Hiff & _).
    assert (sv = true) as -> by (apply Hiff; eauto).
    rewrite Hrun. eauto. }
  assert (y' = [] ->
          detect_watermark_with_signature audio_path id_str pem w'
          = (Raise ValueError, w')) as Hempty.
  { intros Hnil. rewrite Hnil in Hf'. unfold detect_watermark_with_signature.
    rewrite (bind_ok _ _ _ _ _ (librosa_load_audio _ _ _ Hf')).
    unfold bind at 1, lift at 1. rewrite normalize_empty. reflexivity. }
  split; [exact Hreport |]. split; [exact Hempty |].
  intros verified score sv Hout.
  destruct y' as [| x rest].
  - rewrite (Hempty eq_refl) in Hout. discriminate Hout.
  - destruct (Hreport ltac:(discriminate)) as (v & s & Hrun).
    rewrite Hrun in Hout. cbn [fst] in Hout. congruence.
Qed.

(** C7. Signature verification always returns a boolean and never raises:
    it returns true exactly when the key parses, the signature decodes and
    the PSS check passes, and false for a malformed public key, an
    undecodable signature or a cryptographic mismatch. *)
Theorem verification_never_raises (artist_id : string) (watermark_data signature : json)
    (public_key_pem : string) :
  exists b : bool,
    verify_signature artist_id watermark_data signature public_key_pem = Ok b /\
    verify_watermark_signature artist_id watermark_data signature public_key_pem = Ok b /\
    (b = true <->
     exists key bytes,
       load_pem_public_key (encode public_key_pem) = Ok key /\
       b64decode_value signature = Ok bytes /\
       pss_verify key bytes (signed_message artist_id watermark_data) = Ok tt) /\
    (forall e, load_pem_public_key (encode public_key_pem) = Raise e -> b = false) /\
    (forall e, b64decode_value signature = Raise e -> b = false) /\
    (forall key bytes e,
       load_pem_public_key (encode public_key_pem) = Ok key ->
       b64decode_value signature = Ok bytes ->
       pss_verify key bytes (signed_message artist_id watermark_data) = Raise e ->
       b = false).
Proof.
  destruct (verify_signature_total artist_id watermark_data signature public_key_pem)
    as [b Hb].
  exists b. split; [exact Hb |]. split; [exact Hb |].
  assert (b = true <->
          exists key bytes,
            load_pem_public_key (encode public_key_pem) = Ok key /\
            b64decode_value signature = Ok bytes /\
            pss_verify key bytes (signed_message artist_id watermark_data) = Ok tt)
    as Hiff.
  { rewrite <- verify_signature_true. rewrite Hb. split; congruence. }
  split; [exact Hiff |].
  repeat split.
  - intros e He. destruct b; [| reflexivity].
    destruct (proj1 Hiff eq_refl) as (k & bs & Hk & _). congruence.
  - intros e He. destruct b; [| reflexivity].
    destruct (proj1 Hiff eq_refl) as (k & bs & _ & Hd & _). congruence.
  - intros key bytes e Hk Hd He. destruct b; [| reflexivity].
    destruct (proj1 Hiff eq_refl) as (k & bs & Hk' & Hd' & Hv). congruence.
Qed.

(** C8. Signed detection returns a verdict exactly on a loadable,
    non-empty candidate, and then [verified = signatureValid AND
    (corr > 0.001)] and [score = (corr + (1.0 if signatureValid else 0.0))
    / 2.0], where a NaN correlation counts as exactly 0.0; without a valid
    signature the pattern seed material is [identity + "fallback"], with
    one it is [identity + record.signature]. *)
Theorem signed_verdict_and_score (w : world) (audio_path id_str pem : string) :
  (forall verified score signature_valid,
     fst (detect_watermark_with_signature audio_path id_str pem w)
     = Ok (verified, score, signature_valid) ->
     exists y, fs w !! audio_path = Some (FAudio y) /\ y <> []) /\
  (forall y,
     fs w !! audio_path = Some (FAudio y) ->
     y <> [] ->
     exists (yn : list spec_float) (signature_valid : bool) (material : string)
            (seed : Z) (c : spec_float),
       normalize y = Ok yn /\
       pattern_seed material = Ok seed /\
       Np.corrcoef01 yn (generate_pattern seed (length y)) = Ok c /\
       let corr := if Np.isnan c then Np.zero else c in
       detect_watermark_with_signature audio_path id_str pem w
       = (Ok (signature_valid && Np.gt corr threshold,
              Np.div64 (Np.add64 corr (if signature_valid then Np.one else Np.zero)) Np.two,
              signature_valid), w) /\
       (signature_valid = false -> material = id_str +:+ "fallback") /\
       (signature_valid = true ->
        exists d, fs w !! metadata_path_of audio_path = Some (FJson (JDict d)) /\
                  material = match d !! "signature" with
                             | Some (JStr s) => id_str +:+ s
                             | _ => id_str +:+ "fallback"
                             end)).
Proof.
  split.
  - intros verified score sv Hout.
    unfold detect_watermark_with_signature in Hout.
    destruct (fs w !! audio_path) as [[y | j |] |] eqn:Hf;
      try (unfold bind at 1, librosa_load in Hout; rewrite Hf in Hout;
           discriminate Hout).
    exists y. split; [reflexivity |]. intros ->.
    rewrite (bind_ok _ _ _ _ _ (librosa_load_audio _ _ _ Hf)) in Hout.
    unfold bind at 1, lift at 1 in Hout. rewrite normalize_empty in Hout.
    discriminate Hout.
  - intros y Hf Hne.
    destruct (normalize_nonempty y Hne) as (peak & _ & Hn).
    pose proof (normalize_length _ _ Hn) as Hl.
    destruct (detect_signed_run w audio_path id_str pem y _ Hf Hn)
      as (sv & material & c & Hc & Hrun & Hiff & Hfb & Hsig).
    rewrite Hl in Hc.
    exists (map (fun x => Np.div32 x peak) y), sv, material,
           (sha256_int material mod 2 ^ 32), c.
    split; [exact Hn |]. split; [apply pattern_seed_ok |]. split; [exact Hc |].
    cbv zeta. split; [exact Hrun |]. split; [exact Hfb |].
    intros Htrue. destruct (proj1 Hiff Htrue) as (d & Hd & _).
    exists d. split; [exact Hd |]. apply (Hsig Htrue d Hd).
Qed.

(** C9. Signed embedding normalizes the signal (every sample divided, in
    binary32, by the largest absolute sample), takes the fingerprint as the
    SHA-256 hex digest of the raw bytes of the normalized samples (four
    little-endian bytes of the binary32 bit pattern per sample), signs
    [identity:fingerprint] with the private key, seeds the pattern from
    [identity + signature], mixes at gain 0.001, and writes a record holding
    exactly the identity, the signature, the fingerprint and the kind
    ["cryptographic"]. *)
Theorem signed_embedding_steps (w : world) (input_path output_path id_str pem : string)
    (y : list spec_float) (peak : spec_float) (key : private_key) (signature : list byte) :
  fs w !! input_path = Some (FAudio y) ->
  Np.amax (map SFabs y) = Ok peak ->
  let yn := map (fun x => SFdiv 24 128 x peak) y in
  let raw_bytes :=
    concat (map (fun x => let b := Np.bits32 nan_bits32 x in
                          [ SHA256.byte_of_Z b; SHA256.byte_of_Z (Z.shiftr b 8);
                            SHA256.byte_of_Z (Z.shiftr b 16);
                            SHA256.byte_of_Z (Z.shiftr b 24) ]) yn) in
  let fingerprint := SHA256.hexdigest raw_bytes in
  load_pem_private_key (encode pem) = Ok key ->
  pss_sign key (encode (id_str +:+ ":" +:+ fingerprint)) (entropy w) = Ok signature ->
  writable output_path = true ->
  writable (metadata_path_of output_path) = true ->
  let signature_text := decode (b64encode signature) in
  let seed := SHA256.be_int (SHA256.sha256 (encode (id_str +:+ signature_text))) mod 2 ^ 32 in
  let pattern := fst (standard_normal (default_rng seed) (length y)) in
  let y_marked :=
    zip_with (fun a p => Np.add64 (Np.f64_of_f32 a)
                           (Np.mul64 (Np.div64 Np.one (Np.of_Z 1000)) p)) yn pattern in
  let record : gmap string json :=
    <["artist_id" := JStr id_str]>
      (<["signature" := JStr signature_text]>
         (<["audio_hash" := JStr fingerprint]>
            (<["watermark_type" := JStr "cryptographic"]> ∅))) in
  normalize y = Ok yn /\
  length raw_bytes = (4 * length y)%nat /\
  create_watermark_signature id_str fingerprint pem w
  = (Ok signature_text, World (fs w) (N.succ (entropy w)) (clock w)) /\
  pattern_seed (id_str +:+ signature_text) = Ok seed /\
  embed_watermark_with_signature input_path output_path id_str pem w
  = (Ok output_path,
     World (<[metadata_path_of output_path := FJson (JDict record)]>
            (<[output_path := FAudio (map store_sample y_marked)]> (fs w)))
           (N.succ (entropy w)) (clock w)).
Proof.
  intros Hf Hpeak yn raw_bytes fingerprint Hkey Hsign Hw1 Hw2
    signature_text seed pattern y_marked record.
  assert (normalize y = Ok yn) as Hn by (unfold normalize; rewrite Hpeak; reflexivity).
  pose proof (normalize_length _ _ Hn) as Hl.
  split; [exact Hn |]. split.
  { subst raw_bytes. rewrite <- Hl. clear. induction yn as [| x rest IH]; [reflexivity |].
    cbn [map concat length app]. cbn [map concat length app] in IH. lia. }
  split; [apply (sign_watermark_run w id_str fingerprint pem key signature Hkey Hsign) |].
  split; [rewrite pattern_seed_ok; unfold sha256_int; reflexivity |].
  rewrite (embed_signed_run _ _ _ _ _ _ _ _ _ Hf Hn Hkey Hsign Hw1 Hw2), Hl.
  unfold generate_pattern, sha256_int, mix. rewrite alpha_is_nearest. reflexivity.
Qed.

(** C10. Registering never overwrites an existing entry: when [artist_id]
    is already registered the call returns false and leaves the registry
    (and the world) unchanged; whatever the outcome, every entry present
    before is still there unchanged; the call returns true only when
    [artist_id] was absent, and then the registry is the old one with the
    new entry added and saved. *)
Theorem register_never_overwrites (self : KeyRegistry) (artist_id public_key : string)
    (artist_name contact_info description auth_token : option string) (w : world) :
  let out := register_artist self artist_id public_key
               artist_name contact_info description auth_token w in
  let r := fst (fst out) in
  let self' := snd (fst out) in
  let w' := snd out in
  let entry :=
    JDict (<["public_key" := JStr public_key]>
      (<["artist_name" := JStr (py_or artist_name artist_id)]>
      (<["contact_info" := JStr (py_or contact_info "")]>
      (<["description" := JStr (py_or description "")]>
      (<["registered_at" := JStr (isoformat (clock w))]>
      (<["last_updated" := JStr (isoformat (N.succ (clock w)))]> ∅)))))) in
  (is_Some (registry self !! artist_id) -> r = Ok false /\ self' = self /\ w' = w) /\
  (forall k v, registry self !! k = Some v -> registry self' !! k = Some v) /\
  (r = Ok true ->
   registry self !! artist_id = None /\
   registry self' = <[artist_id := entry]> (registry self) /\
   fs w' !! registry_file self = Some (FJson (JDict (registry self')))) /\
  (registry self !! artist_id = None ->
   r <> Ok false /\ registry self' !! artist_id = Some entry).
Proof.
  cbv zeta. unfold register_artist.
  destruct (registry self !! artist_id) as [old |] eqn:Hold.
  - rewrite bool_decide_eq_true_2 by eauto. cbn [fst snd].
    repeat split; try discriminate; auto.
  - rewrite bool_decide_eq_false_2 by (intros [? ?]; discriminate).
    unfold datetime_now. cbn [clock fs entropy].
    match goal with
    | |- context [_save_registry ?s ?u] =>
        destruct (_save_registry s u) as [[[] | e] w3] eqn:Hsave
    end; cbn [fst snd registry registry_file].
    + split; [intros [? ?]; discriminate |]. split.
      { intros k v Hk. rewrite lookup_insert_ne by congruence. exact Hk. }
      split.
      { intros _. split; [reflexivity |]. split; [reflexivity |].
        unfold _save_registry, bind, os_makedirs, json_dump in Hsave.
        cbn [registry registry_file] in Hsave.
        destruct (String.eqb _ ""); [discriminate Hsave |].
        destruct (writable (os_path_dirname _)); [| discriminate Hsave].
        destruct (writable (registry_file self)); [| discriminate Hsave].
        injection Hsave as <-. cbn [set_fs fs]. apply lookup_insert_eq. }
      intros _. split; [discriminate | apply lookup_insert_eq].
    + split; [intros [? ?]; discriminate |]. split.
      { intros k v Hk. rewrite lookup_insert_ne by congruence. exact Hk. }
      split; [discriminate |].
      intros _. split; [discriminate | apply lookup_insert_eq].
Qed.

End Claims.

(** ** The claims on concrete runs *)

Section Runs.
Import Fixture Scenario.
Existing Instance lcg.
Existing Instance mac.
Existing Instance host.

Lemma pattern_reproducible_witness :
  fs w0 !! "in.wav" = Some (FAudio samples5) /\
  exists (seed : Z) (pattern yn1 yn2 : list spec_float) (corr : spec_float),
    pattern_seed ("artist_1" +:+ "s3cret") = Ok seed /\
    pattern = fst (standard_normal (default_rng seed) (length samples5)) /\
    pattern = fst (standard_normal (default_rng seed) (length samples5)) /\
    normalize samples5 = Ok yn1 /\
    normalize samples5 = Ok yn2 /\
    embed_watermark "in.wav" "out.wav" "artist_1" "s3cret" w0
    = (Ok "out.wav",
       set_fs (<["out.wav" := FAudio (map store_sample (mix yn1 pattern))]> (fs w0)) w0) /\
    correlation yn2 pattern = Ok corr /\
    detect_watermark "in.wav" "artist_1" "s3cret" w0 = (Ok (Np.gt corr threshold, corr), w0).
Proof.
  split; [vm_compute; reflexivity |].
  apply (pattern_reproducible w0 w0 "in.wav" "out.wav" "in.wav" "artist_1" "s3cret"
           samples5 samples5).
  - vm_compute; reflexivity.
  - vm_compute; reflexivity.
  - discriminate.
  - reflexivity.
  - reflexivity.
Defined.





Lemma pattern_algorithm_witness :
  fs w0 !! "in.wav" = Some (FAudio samples5) /\
  pattern_seed ("artist_1" +:+ "s3cret") = Ok 592558837 /\
  length (fst (standard_normal (default_rng 592558837) (length samples5))) = length samples5.
Proof.
  assert (fs w0 !! "in.wav" = Some (FAudio samples5)) as Hf by (vm_compute; reflexivity).
  split; [exact Hf |].
  destruct (pattern_algorithm w0 "in.wav" "out.wav" "artist_1" "s3cret" samples5
              Hf ltac:(discriminate) eq_refl)
    as (_ & _ & _ & Hseed & _ & Hlen & _).
  split; [| exact Hlen]. rewrite Hseed. vm_compute. reflexivity.
Defined.

(** C5, as stated, fails: with no record at all the signed detector
    returns normally, and its answer is the one it gives for a record whose
    signature fails to verify. *)
Lemma missing_record_counterexample :
  fs w0 !! metadata_path_of "in.wav" = None /\
  fs w_bad !! metadata_path_of "in.wav" = Some (FJson (JDict bad_record)) /\
  fst (detect_watermark_with_signature "in.wav" "artist_1" "KEY" w0)
  = Ok (false, S754_finite false 6748318792206715 (-56), false) /\
  fst (detect_watermark_with_signature "in.wav" "artist_1" "KEY" w_bad)
  = Ok (false, S754_finite false 6748318792206715 (-56), false).
Proof. vm_compute. repeat split; reflexivity. Qed.

Lemma missing_record_falls_back_witness :
  fs w0 !! metadata_path_of "in.wav" = None /\
  detect_watermark_with_signature "in.wav" "artist_1" "KEY" w0
  = match detect_watermark "in.wav" "artist_1" "fallback" w0 with
    | (Ok (_, corr), w') =>
        (Ok (false, Np.div64 (Np.add64 corr Np.zero) Np.two, false), w')
    | (Raise e, w') => (Raise e, w')
    end.
Proof.
  assert (fs w0 !! metadata_path_of "in.wav" = None) as Hm by (vm_compute; reflexivity).
  split; [exact Hm |].
  apply (missing_record_falls_back w0 "in.wav" "artist_1" "KEY" Hm).
Defined.

(** C6, as stated, fails: the record written by a signed embedding is
    untouched and verifies under the key, the audio next to it is replaced
    by a file without samples, and the detector raises instead of reporting
    [signatureValid = true]. *)
Lemma tampered_audio_counterexample :
  let w' := set_fs (<["out.wav" := FAudio []]> (fs w_signed)) w_signed in
  fs w' !! metadata_path_of "out.wav" = fs w_signed !! metadata_path_of "out.wav" /\
  (exists d,
     fs w' !! metadata_path_of "out.wav" = Some (FJson (JDict d)) /\
     d !! "watermark_type" = Some (JStr "cryptographic") /\
     verify_watermark_signature "artist_1" (record_field d "audio_hash")
       (record_field d "signature") "KEY" = Ok true) /\
  fst (detect_watermark_with_signature "out.wav" "artist_1" "KEY" w') = Raise ValueError.
Proof.
  intros w'. split; [vm_compute; reflexivity |]. split.
  - eexists. split; [vm_compute; reflexivity |].
    split; vm_compute; reflexivity.
  - vm_compute. reflexivity.
Qed.

Lemma tampered_audio_keeps_signature_witness :
  let w' := set_fs (<["out.wav" := FAudio tampered]> (fs w_signed)) w_signed in
  exists verified score,
    detect_watermark_with_signature "out.wav" "artist_1" "KEY" w'
    = (Ok (verified, score, true), w').
Proof.
  intros w'.
  eapply (tampered_audio_keeps_signature w_signed "out.wav" "artist_1" "KEY" _ tampered).
  - vm_compute; reflexivity.
  - vm_compute; reflexivity.
  - vm_compute; reflexivity.
  - vm_compute; reflexivity.
  - discriminate.
Defined.

Lemma signed_verdict_and_score_witness :
  exists (signature_valid : bool) (corr : spec_float),
    Np.isnan corr = false /\
    detect_watermark_with_signature "out.wav" "artist_1" "KEY" w_signed
    = (Ok (signature_valid && Np.gt corr threshold,
           Np.div64 (Np.add64 corr (if signature_valid then Np.one else Np.zero)) Np.two,
           signature_valid), w_signed).
Proof.
  edestruct (proj2 (signed_verdict_and_score w_signed "out.wav" "artist_1" "KEY"))
    as (yn & sv & material & seed & c & _ & _ & _ & Hrun & _).
  - vm_compute; reflexivity.
  - discriminate.
  - exists sv, (if Np.isnan c then Np.zero else c).
    split; [destruct c; reflexivity | exact Hrun].
Defined.

Lemma signed_embedding_steps_witness :
  exists (w' : world) (d : gmap string json) (stored : list spec_float),
    embed_watermark_with_signature "in.wav" "out.wav" "artist_1" "KEY" w0
    = (Ok "out.wav", w') /\
    fs w' !! "out_metadata.json" = Some (FJson (JDict d)) /\
    d !! "artist_id" = Some (JStr "artist_1") /\
    d !! "audio_hash"
    = Some (JStr "3c7f4b9929d2a79d21bd669e33d2f57cb9eda6a6e8899f7331f2ba422e4bc2f6") /\
    d !! "watermark_type" = Some (JStr "cryptographic") /\
    fs w' !! "out.wav" = Some (FAudio stored) /\
    length stored = length samples5.
Proof.
  edestruct (signed_embedding_steps w0 "in.wav" "out.wav" "artist_1" "KEY" samples5)
    as (_ & _ & _ & _ & Hrun).
  - vm_compute; reflexivity.
  - vm_compute; reflexivity.
  - vm_compute; reflexivity.
  - vm_compute; reflexivity.
  - vm_compute; reflexivity.
  - vm_compute; reflexivity.
  - eexists _, _, _. split; [exact Hrun |].
    split; [vm_compute; reflexivity |].
    split; [vm_compute; reflexivity |].
    split; [vm_compute; reflexivity |].
    split; [vm_compute; reflexivity |].
    split; vm_compute; reflexivity.
Defined.

End Runs.

(** * Further properties of the code *)

(** ** Detection reads, embedding writes *)

Section Effects.
Context {G : BitGenerator} {C : Crypto} {H : Host}.

Lemma preserves_ret {A : Type} (a : A) : preserves (ret a).
Proof. intros w. reflexivity. Qed.

Lemma preserves_lift {A : Type} (r : result A) : preserves (lift r).
Proof. intros w. reflexivity. Qed.

Lemma preserves_bind {A B : Type} (m : M A) (k : A -> M B) :
  preserves m -> (forall a, preserves (k a)) -> preserves (bind m k).
Proof.
  intros Hm Hk w. unfold bind. specialize (Hm w).
  destruct (m w) as [[a | e] w']; cbn [snd] in Hm; subst w'; [apply Hk | reflexivity].
Qed.

Lemma preserves_Mtry {A : Type} (body : M A) (handler : exn -> M A) :
  preserves body -> (forall e, preserves (handler e)) -> preserves (Mtry body handler).
Proof.
  intros Hb Hh w. unfold Mtry. specialize (Hb w).
  destruct (body w) as [[a | e] w']; cbn [snd] in Hb; subst w'; [reflexivity | apply Hh].
Qed.

Lemma preserves_librosa_load (path : string) : preserves (librosa_load path).
Proof. intros w. unfold librosa_load. destruct (fs w !! path) as [[| |] |]; reflexivity. Qed.

Lemma preserves_json_load (path : string) : preserves (json_load path).
Proof. intros w. unfold json_load. destruct (fs w !! path) as [[| |] |]; reflexivity. Qed.

Lemma preserves_read_signature (metadata_path id_str pem : string) :
  preserves (read_signature metadata_path id_str pem).
Proof.
  unfold read_signature. apply preserves_bind; [intros w; reflexivity |].
  intros [|]; [| apply preserves_ret].
  apply preserves_Mtry; [| intros e; apply preserves_ret].
  apply preserves_bind; [apply preserves_json_load |]. intros metadata.
  apply preserves_bind; [apply preserves_lift |]. intros r. apply preserves_ret.
Qed.

Lemma preserves_detect_watermark (audio_path id_str secret : string) :
  preserves (detect_watermark audio_path id_str secret).
Proof.
  unfold detect_watermark.
  apply preserves_bind; [apply preserves_librosa_load |]. intros y.
  apply preserves_bind; [apply preserves_lift |]. intros yn.
  apply preserves_bind; [apply preserves_lift |]. intros seed.
  apply preserves_bind; [apply preserves_lift |]. intros corr. apply preserves_ret.
Qed.

Lemma preserves_detect_signed (audio_path id_str pem : string) :
  preserves (detect_watermark_with_signature audio_path id_str pem).
Proof.
  unfold detect_watermark_with_signature.
  apply preserves_bind; [apply preserves_librosa_load |]. intros y.
  apply preserves_bind; [apply preserves_lift |]. intros yn.
  apply preserves_bind; [apply preserves_read_signature |]. intros st.
  apply preserves_bind; [apply preserves_lift |]. intros seed.
  apply preserves_bind; [apply preserves_lift |]. intros corr. apply preserves_ret.
Qed.

(** X1. The three detectors only read: whatever they return or raise, the
    file system, the random source and the clock are as before the call. *)
Theorem detection_is_read_only (audio_path id_str key : string) (is_key_pair : bool)
    (w : world) :
  snd (detect_watermark audio_path id_str key w) = w /\
  snd (detect_watermark_with_signature audio_path id_str key w) = w /\
  snd (detect_watermark_hybrid audio_path id_str key is_key_pair w) = w.
Proof.
  split; [apply preserves_detect_watermark |].
  split; [apply preserves_detect_signed |].
  unfold detect_watermark_hybrid. destruct is_key_pair.
  - apply preserves_bind; [apply preserves_detect_signed | intros r; apply preserves_ret].
  - apply preserves_bind; [apply preserves_detect_watermark | intros r; apply preserves_ret].
Qed.

End Effects.

Section EmbedEffects.
Context {G : BitGenerator} {C : Crypto} {H : Host}.

(** X2. [embed_watermark] writes the output path and nothing else: every
    other path, the random source and the clock are unchanged; when it
    raises, the whole world is unchanged; when it returns, it returns the
    output path, the input was a non-empty signal and the output holds as
    many samples as the input. *)
Theorem embed_writes_only_output (input_path output_path id_str secret : string)
    (w : world) :
  let out := embed_watermark input_path output_path id_str secret w in
  (forall p, p <> output_path -> fs (snd out) !! p = fs w !! p) /\
  entropy (snd out) = entropy w /\
  clock (snd out) = clock w /\
  (forall e, fst out = Raise e -> snd out = w) /\
  (forall r, fst out = Ok r ->
     r = output_path /\
     exists y stored,
       fs w !! input_path = Some (FAudio y) /\ y <> [] /\
       fs (snd out) !! output_path = Some (FAudio stored) /\
       length stored = length y).
Proof.
  cbv zeta.
  destruct (fs w !! input_path) as [f |] eqn:Hf.
  2: { unfold embed_watermark, bind, librosa_load. rewrite Hf. cbn [fst snd].
       repeat split; try reflexivity; discriminate. }
  destruct f as [y | j |];
    try (unfold embed_watermark, bind, librosa_load; rewrite Hf; cbn [fst snd];
         repeat split; try reflexivity; discriminate).
  destruct (normalize y) as [yn | e0] eqn:Hn.
  2: { unfold embed_watermark. rewrite (bind_ok _ _ _ _ _ (librosa_load_audio _ _ _ Hf)).
       unfold bind, lift. rewrite Hn. cbn [fst snd].
       repeat split; try reflexivity; discriminate. }
  rewrite (embed_watermark_run _ _ _ _ _ _ _ Hf Hn).
  destruct (writable output_path); cbn [fst snd set_fs fs entropy clock].
  2: { repeat split; try reflexivity; discriminate. }
  split; [intros p Hp; apply lookup_insert_ne; congruence |].
  split; [reflexivity |]. split; [reflexivity |]. split; [discriminate |].
  intros r [= <-]. split; [reflexivity |].
  eexists y, _. split; [reflexivity |]. split.
  { intros ->. rewrite normalize_empty in Hn. discriminate Hn. }
  split; [apply lookup_insert_eq |].
  rewrite length_map. unfold mix. rewrite length_zip_with_l_eq.
  - apply (normalize_length _ _ Hn).
  - symmetry. apply generate_pattern_length.
Qed.

(** Signed embedding once the input is loaded and normalized and the key
    signs, by what can be written. *)
Lemma embed_signed_cases (w : world) (input_path output_path id_str pem : string)
    (y yn : list spec_float) (key : private_key) (signature : list byte) :
  fs w !! input_path = Some (FAudio y) ->
  normalize y = Ok yn ->
  load_pem_private_key (encode pem) = Ok key ->
  pss_sign key
    (signed_message id_str (JStr (SHA256.hexdigest (Np.tobytes nan_bits32 yn))))
    (entropy w) = Ok signature ->
  let signed := World (fs w) (N.succ (entropy w)) (clock w) in
  let stored :=
    map store_sample
      (mix yn (generate_pattern
                 (sha256_int (id_str +:+ decode (b64encode signature)) mod 2 ^ 32)
                 (length yn))) in
  let written := set_fs (<[output_path := FAudio stored]> (fs w)) signed in
  embed_watermark_with_signature input_path output_path id_str pem w
  = if writable output_path
    then if writable (metadata_path_of output_path)
         then (Ok output_path,
               set_fs (<[metadata_path_of output_path :=
                           FJson (provenance_record id_str (decode (b64encode signature))
                                    (SHA256.hexdigest (Np.tobytes nan_bits32 yn)))]>
                        (fs written)) written)
         else (Raise OSError, written)
    else (Raise LibraryError, signed).
Proof.
  intros Hf Hn Hkey Hsign. cbv zeta. unfold embed_watermark_with_signature.
  rewrite (bind_ok _ _ _ _ _ (librosa_load_audio _ _ _ Hf)).
  unfold bind at 1, lift at 1. rewrite Hn.
  rewrite (bind_ok _ _ _ _ _ (sign_watermark_run _ _ _ _ _ _ Hkey Hsign)).
  unfold bind at 1, lift at 1. rewrite pattern_seed_ok.
  unfold bind, sf_write, json_dump, ret.
  destruct (writable output_path); [| reflexivity].
  destruct (writable (metadata_path_of output_path)); reflexivity.
Qed.

(** X3. Signed embedding is not atomic: when the audio can be written but
    the metadata path cannot, the call raises after the watermarked audio
    (the normalized signal plus 0.001 times the pattern seeded from identity
    and signature) is on disk and a signature was drawn; no record exists
    for that audio. *)
Theorem signed_embed_without_record (w : world)
    (input_path output_path id_str pem : string)
    (y yn : list spec_float) (key : private_key) (signature : list byte) :
  fs w !! input_path = Some (FAudio y) ->
  normalize y = Ok yn ->
  load_pem_private_key (encode pem) = Ok key ->
  pss_sign key
    (encode (id_str +:+ ":" +:+ SHA256.hexdigest (Np.tobytes nan_bits32 yn)))
    (entropy w) = Ok signature ->
  writable output_path = true ->
  writable (metadata_path_of output_path) = false ->
  let out := embed_watermark_with_signature input_path output_path id_str pem w in
  let seed :=
    SHA256.be_int (SHA256.sha256 (encode (id_str +:+ decode (b64encode signature))))
    mod 2 ^ 32 in
  let pattern := fst (standard_normal (default_rng seed) (length y)) in
  fst out = Raise OSError /\
  (exists stored, fs (snd out) !! output_path = Some (FAudio stored) /\
                  length stored = length y) /\
  fs (snd out) !! metadata_path_of output_path = fs w !! metadata_path_of output_path /\
  entropy (snd out) = N.succ (entropy w) /\
  fs (snd out) !! output_path
  = Some (FAudio (map store_sample
                    (zip_with (fun a p => Np.add64 (Np.f64_of_f32 a)
                                            (Np.mul64 (Np.div64 Np.one (Np.of_Z 1000)) p))
                       yn pattern))).
Proof.
  intros Hf Hn Hkey Hsign Hw1 Hw2. cbv zeta.
  assert (metadata_path_of output_path <> output_path) as Hdiff
    by (intros Heq; rewrite Heq, Hw1 in Hw2; discriminate Hw2).
  rewrite (embed_signed_cases _ _ _ _ _ _ _ _ _ Hf Hn Hkey Hsign), Hw1, Hw2.
  cbn [fst snd set_fs fs entropy clock].
  split; [reflexivity |]. split.
  - eexists. split; [apply lookup_insert_eq |].
    rewrite length_map. unfold mix. rewrite length_zip_with_l_eq.
    + apply (normalize_length _ _ Hn).
    + symmetry. apply generate_pattern_length.
  - split; [apply lookup_insert_ne; congruence |]. split; [reflexivity |].
    rewrite lookup_insert_eq, (normalize_length _ _ Hn).
    unfold generate_pattern, sha256_int, mix. rewrite alpha_is_nearest. reflexivity.
Qed.

(** A path in which [.wav] does not occur is its own metadata path. *)
Lemma replace_absent (old new s : string) :
  str_contains old s = false -> replace_from old new O s = s.
Proof.
  induction s as [| c rest IH]; intros Habs; [reflexivity |].
  cbn [str_contains] in Habs. apply orb_false_iff in Habs as [Hpre Hrest].
  cbn [replace_from]. rewrite Hpre. f_equal. apply IH. exact Hrest.
Qed.

Lemma metadata_path_without_wav (path : string) :
  str_contains ".wav" path = false -> metadata_path_of path = path.
Proof. apply replace_absent. Qed.

(** X4. The record is located by replacing [.wav] in the audio path.  When
    the output path of a signed embedding contains no [.wav], the record is
    written over the watermarked audio: the output path then holds the JSON
    record, and both detectors raise on it. *)
Theorem signed_embed_overwrites_audio (w : world)
    (input_path output_path id_str pem : string)
    (y yn : list spec_float) (key : private_key) (signature : list byte) :
  fs w !! input_path = Some (FAudio y) ->
  normalize y = Ok yn ->
  load_pem_private_key (encode pem) = Ok key ->
  pss_sign key
    (encode (id_str +:+ ":" +:+ SHA256.hexdigest (Np.tobytes nan_bits32 yn)))
    (entropy w) = Ok signature ->
  writable output_path = true ->
  str_contains ".wav" output_path = false ->
  let out := embed_watermark_with_signature input_path output_path id_str pem w in
  fst out = Ok output_path /\
  fs (snd out) !! output_path
  = Some (FJson (provenance_record id_str (decode (b64encode signature))
                   (SHA256.hexdigest (Np.tobytes nan_bits32 yn)))) /\
  (forall public_key_pem,
     fst (detect_watermark_with_signature output_path id_str public_key_pem (snd out))
     = Raise LibraryError) /\
  (forall secret,
     fst (detect_watermark output_path id_str secret (snd out)) = Raise LibraryError).
Proof.
  intros Hf Hn Hkey Hsign Hw1 Habs. cbv zeta.
  pose proof (metadata_path_without_wav _ Habs) as Hmp.
  assert (writable (metadata_path_of output_path) = true) as Hw2 by (rewrite Hmp; exact Hw1).
  rewrite (embed_signed_run _ _ _ _ _ _ _ _ _ Hf Hn Hkey Hsign Hw1 Hw2).
  cbn [fst snd fs]. rewrite Hmp.
  split; [reflexivity |]. split; [apply lookup_insert_eq |].
  split.
  - intros pk. unfold detect_watermark_with_signature, bind at 1, librosa_load.
    cbn [fs]. rewrite lookup_insert_eq. reflexivity.
  - intros secret. unfold detect_watermark, bind at 1, librosa_load.
    cbn [fs]. rewrite lookup_insert_eq. reflexivity.
Qed.

End EmbedEffects.

(** ** The signed path end to end *)

Section SignedProperties.
Context {G : BitGenerator} {C : Crypto} {H : Host}.


(** When the signed detector returns, the candidate was a loadable signal
    that normalizes. *)
Lemma detect_signed_returns (w : world) (audio_path id_str pem : string)
    (r : bool * spec_float * bool) :
  fst (detect_watermark_with_signature audio_path id_str pem w) = Ok r ->
  exists y yn, fs w !! audio_path = Some (FAudio y) /\ normalize y = Ok yn.
Proof.
  intros Hout. unfold detect_watermark_with_signature in Hout.
  destruct (fs w !! audio_path) as [[y | j |] |] eqn:Hf;
    try (unfold bind at 1, librosa_load in Hout; rewrite Hf in Hout; discriminate Hout).
  rewrite (bind_ok _ _ _ _ _ (librosa_load_audio _ _ _ Hf)) in Hout.
  destruct (normalize y) as [yn | e] eqn:Hn; [eauto |].
  unfold bind at 1, lift at 1 in Hout. discriminate Hout.
Qed.


(** X6. The signed detector never reports [verified] without a record: a
    true verdict implies a true [signatureValid], a metadata file holding a
    JSON object of kind ["cryptographic"], and stored signature and
    fingerprint that pass the key parsing, base64 decoding and PSS check. *)
Theorem signed_verdict_needs_valid_record (w : world) (audio_path id_str pem : string)
    (score : spec_float) (signature_valid : bool) :
  fst (detect_watermark_with_signature audio_path id_str pem w)
  = Ok (true, score, signature_valid) ->
  signature_valid = true /\
  exists d key bytes,
    fs w !! metadata_path_of audio_path = Some (FJson (JDict d)) /\
    d !! "watermark_type" = Some (JStr "cryptographic") /\
    load_pem_public_key (encode pem) = Ok key /\
    b64decode_value (record_field d "signature") = Ok bytes /\
    pss_verify key bytes (signed_message id_str (record_field d "audio_hash")) = Ok tt.
Proof.
  intros Hout.
  destruct (detect_signed_returns _ _ _ _ _ Hout) as (y & yn & Hf & Hn).
  destruct (detect_signed_run w audio_path id_str pem y yn Hf Hn)
    as (sv & material & c & _ & Hrun & Hiff & _).
  rewrite Hrun in Hout. cbn [fst] in Hout. injection Hout as Hv _ <-.
  destruct sv; [| discriminate Hv].
  split; [reflexivity |].
  destruct (proj1 Hiff eq_refl) as (d & Hd & Hkind & Hver).
  apply verify_signature_true in Hver as (key & bytes & Hk & Hb & Hp).
  exists d, key, bytes. auto.
Qed.

(** X7. Whatever makes the signature invalid (no record, unreadable JSON,
    another kind, a bad key, an undecodable or wrong signature), the signed
    detector answers as with no record at all: [verified = false] and half
    the correlation the unsigned detector finds with the secret
    ["fallback"]. *)
Theorem invalid_signature_is_fallback (w : world) (audio_path id_str pem : string)
    (verified : bool) (score : spec_float) :
  fst (detect_watermark_with_signature audio_path id_str pem w)
  = Ok (verified, score, false) ->
  verified = false /\
  exists unsigned_verdict corr,
    detect_watermark audio_path id_str "fallback" w = (Ok (unsigned_verdict, corr), w) /\
    score = Np.div64 (Np.add64 corr Np.zero) Np.two.
Proof.
  intros Hout.
  destruct (detect_signed_returns _ _ _ _ _ Hout) as (y & yn & Hf & Hn).
  destruct (detect_signed_run w audio_path id_str pem y yn Hf Hn)
    as (sv & material & c & Hc & Hrun & _ & Hfb & _).
  rewrite Hrun in Hout. cbn [fst] in Hout. injection Hout as <- <- ->.
  split; [reflexivity |].
  rewrite (Hfb eq_refl) in Hc.
  rewrite (detect_watermark_run _ _ _ _ _ _ Hf Hn). unfold correlation. rewrite Hc.
  cbn [rbind]. eauto.
Qed.

End SignedProperties.

(** ** Scores, seeds and the hybrid detector *)

Section Scores.
Context {G : BitGenerator} {C : Crypto} {H : Host}.

(** X8. The score of the unsigned detector is never NaN and always lies in
    [-1, 1], and the verdict is the comparison of that score with 0.001. *)
Theorem unsigned_score_range (w : world) (audio_path id_str secret : string)
    (verified : bool) (score : spec_float) :
  fst (detect_watermark audio_path id_str secret w) = Ok (verified, score) ->
  Np.isnan score = false /\
  SFleb (SFopp Np.one) score = true /\
  SFleb score Np.one = true /\
  verified = Np.gt score threshold.
Proof.
  intros Hout.
  destruct (fs w !! audio_path) as [[y | j |] |] eqn:Hf;
    try (unfold detect_watermark, bind at 1, librosa_load in Hout; rewrite Hf in Hout;
         discriminate Hout).
  destruct (normalize y) as [yn | e] eqn:Hn.
  2: { unfold detect_watermark in Hout.
       rewrite (bind_ok _ _ _ _ _ (librosa_load_audio _ _ _ Hf)) in Hout.
       unfold bind at 1, lift at 1 in Hout. rewrite Hn in Hout. discriminate Hout. }
  rewrite (detect_watermark_run _ _ _ _ _ _ Hf Hn) in Hout.
  unfold correlation, Np.corrcoef01 in Hout.
  destruct (Nat.eqb _ _); [| discriminate Hout].
  cbn [rbind fst] in Hout. injection Hout as <- <-.
  match goal with
  | |- context [Np.nan_to_zero (Np.clip ?x _ _)] =>
      destruct (clipped_in_range x) as (Hnan & Hlo & Hhi)
  end.
  auto.
Qed.

End Scores.

Section Seeds.
Context {G : BitGenerator} {C : Crypto} {H : Host}.

Lemma be_int_fold (bs : list byte) (acc : Z) :
  fold_left (fun a b => a * 256 + SHA256.byte_val b) bs acc
  = acc * 256 ^ Z.of_nat (length bs) + SHA256.be_int bs.
Proof.
  unfold SHA256.be_int. revert acc.
  induction bs as [| b bs IH]; intros acc.
  - cbn [fold_left length]. change (256 ^ Z.of_nat 0) with 1. lia.
  - cbn [fold_left length]. rewrite IH, (IH (0 * 256 + SHA256.byte_val b)).
    rewrite Nat2Z.inj_succ, Z.pow_succ_r by lia. lia.
Qed.

Lemma be_int_app (a b : list byte) :
  SHA256.be_int (a ++ b) = SHA256.be_int a * 256 ^ Z.of_nat (length b) + SHA256.be_int b.
Proof.
  unfold SHA256.be_int at 1. rewrite fold_left_app, be_int_fold. reflexivity.
Qed.

(** The seed is the big-endian value of the last four digest bytes. *)
Lemma pattern_seed_tail (material : string) :
  pattern_seed material
  = Ok (SHA256.be_int (skipn 28 (SHA256.sha256 (encode material)))).
Proof.
  rewrite pattern_seed_ok. unfold sha256_int. f_equal.
  set (d := SHA256.sha256 (encode material)).
  assert (length (skipn 28 d) = 4%nat) as Hlen
    by (rewrite length_skipn; subst d; rewrite SHA256Facts.sha256_length; reflexivity).
  rewrite <- (firstn_skipn 28 d) at 1. rewrite be_int_app, Hlen.
  pose proof (SHA256Facts.be_int_range (skipn 28 d)) as Hr. rewrite Hlen in Hr.
  change (256 ^ Z.of_nat 4) with (2 ^ 32) in *.
  rewrite Z.add_comm, Z.mod_add by lia. apply Z.mod_small. exact Hr.
Qed.

(** Key material with one seed is one key, for embedding and detection. *)
Lemma same_seed_same_watermark (id1 key1 id2 key2 : string) :
  pattern_seed (id1 +:+ key1) = pattern_seed (id2 +:+ key2) ->
  (forall path w,
     detect_watermark path id1 key1 w = detect_watermark path id2 key2 w) /\
  (forall input_path output_path w,
     embed_watermark input_path output_path id1 key1 w
     = embed_watermark input_path output_path id2 key2 w).
Proof.
  intros Hseed. split.
  - intros path w. unfold detect_watermark. rewrite Hseed. reflexivity.
  - intros i o w. unfold embed_watermark. rewrite Hseed. reflexivity.
Qed.

(** X9. Of the 256 digest bits only the last 32 reach the generator: two
    (identity, secret) pairs whose SHA-256 digests end in the same four
    bytes have the same seed, embed the same watermark and are told apart
    by no detection. *)
Theorem seed_uses_last_four_bytes (id1 key1 id2 key2 : string) :
  skipn 28 (SHA256.sha256 (encode (id1 +:+ key1)))
  = skipn 28 (SHA256.sha256 (encode (id2 +:+ key2))) ->
  pattern_seed (id1 +:+ key1) = pattern_seed (id2 +:+ key2) /\
  (forall path w,
     detect_watermark path id1 key1 w = detect_watermark path id2 key2 w) /\
  (forall input_path output_path w,
     embed_watermark input_path output_path id1 key1 w
     = embed_watermark input_path output_path id2 key2 w).
Proof.
  intros Htail.
  assert (pattern_seed (id1 +:+ key1) = pattern_seed (id2 +:+ key2)) as Hseed
    by (rewrite !pattern_seed_tail, Htail; reflexivity).
  split; [exact Hseed | apply same_seed_same_watermark; exact Hseed].
Qed.

(** X10. Identity and secret are joined without a separator: pairs with
    the same concatenation (as ["artist_1"], ["2abc"] and ["artist_12"],
    ["abc"]) are one key, so a watermark embedded for one identity is
    detected, with the same score, for the other. *)
Theorem concatenation_is_ambiguous (id1 key1 id2 key2 : string) :
  id1 +:+ key1 = id2 +:+ key2 ->
  (forall path w,
     detect_watermark path id1 key1 w = detect_watermark path id2 key2 w) /\
  (forall input_path output_path w,
     embed_watermark input_path output_path id1 key1 w
     = embed_watermark input_path output_path id2 key2 w) /\
  (forall input_path output_path w,
     let w' := snd (embed_watermark input_path output_path id1 key1 w) in
     detect_watermark output_path id2 key2 w' = detect_watermark output_path id1 key1 w').
Proof.
  intros Hcat.
  destruct (same_seed_same_watermark id1 key1 id2 key2) as [Hd He];
    [rewrite Hcat; reflexivity |].
  split; [exact Hd |]. split; [exact He |].
  intros i o w. cbv zeta. symmetry. apply Hd.
Qed.

(** X11. In key-pair mode the hybrid detector reports the method
    ["cryptographic"] exactly when the signature is valid and
    ["correlation"] otherwise, and a result labelled ["correlation"] is
    never verified; in the other mode it is the unsigned detector labelled
    ["traditional"]. *)
Theorem hybrid_method_and_verdict (w : world) (audio_path id_str key : string)
    (is_key_pair verified : bool) (score : spec_float) (method : string) :
  fst (detect_watermark_hybrid audio_path id_str key is_key_pair w)
  = Ok (verified, score, method) ->
  (is_key_pair = false ->
   method = "traditional" /\
   fst (detect_watermark audio_path id_str key w) = Ok (verified, score)) /\
  (is_key_pair = true ->
   exists signature_valid,
     fst (detect_watermark_with_signature audio_path id_str key w)
     = Ok (verified, score, signature_valid) /\
     method = (if signature_valid then "cryptographic" else "correlation") /\
     (method = "correlation" -> verified = false) /\
     (verified = true -> method = "cryptographic")).
Proof.
  intros Hout. unfold detect_watermark_hybrid in Hout. destruct is_key_pair.
  - split; [discriminate |]. intros _.
    unfold bind in Hout.
    destruct (detect_watermark_with_signature audio_path id_str key w)
      as [[[[v s] sv] | e] w'] eqn:Hrun; [| discriminate Hout].
    cbn [ret fst snd] in Hout. injection Hout as <- <- <-.
    exists sv. split; [reflexivity |]. split; [reflexivity |].
    assert (v = true -> sv = true) as Hsound.
    { intros ->.
      pose proof (f_equal fst Hrun) as Hfst. cbn [fst] in Hfst.
      destruct (detect_signed_returns _ _ _ _ _ Hfst) as (y & yn & Hf & Hn).
      destruct (detect_signed_run w audio_path id_str key y yn Hf Hn)
        as (sv' & material & c & _ & Hrun' & _).
      rewrite Hrun' in Hrun. injection Hrun as Hv _ <- _.
      destruct sv'; [reflexivity | discriminate Hv]. }
    split.
    + intros Hm. destruct sv; [discriminate Hm |].
      destruct v; [| reflexivity]. specialize (Hsound eq_refl). discriminate Hsound.
    + intros Hv. rewrite (Hsound Hv). reflexivity.
  - split; [| discriminate]. intros _.
    unfold bind in Hout.
    destruct (detect_watermark audio_path id_str key w) as [[[v s] | e] w'] eqn:Hrun;
      [| discriminate Hout].
    cbn [ret fst snd] in Hout. injection Hout as <- <- <-.
    split; reflexivity.
Qed.

End Seeds.

(** ** The registry: saving, reloading, updating, deleting *)

Section RegistryFacts.
Context {H : Host} {R : Runtime}.

(** Saving succeeds exactly when the file has a directory part and both the
    directory and the file can be written; it then stores the registry. *)
Lemma save_registry_cases (self : KeyRegistry) (w : world) :
  _save_registry self w
  = if String.eqb (os_path_dirname (registry_file self)) "" then (Raise OSError, w)
    else if writable (os_path_dirname (registry_file self))
         then if writable (registry_file self)
              then (Ok tt, set_fs (<[registry_file self := FJson (JDict (registry self))]>
                                     (fs w)) w)
              else (Raise OSError, w)
         else (Raise OSError, w).
Proof.
  unfold _save_registry, bind, os_makedirs, json_dump.
  destruct (String.eqb _ ""); [reflexivity |].
  destruct (writable (os_path_dirname _)); [| reflexivity].
  destruct (writable (registry_file self)); reflexivity.
Qed.

Lemma save_registry_ok (self : KeyRegistry) (w w' : world) (u : unit) :
  _save_registry self w = (Ok u, w') ->
  w' = set_fs (<[registry_file self := FJson (JDict (registry self))]> (fs w)) w.
Proof.
  rewrite save_registry_cases.
  destruct (String.eqb _ ""); [discriminate |].
  destruct (writable (os_path_dirname _)); [| discriminate].
  destruct (writable (registry_file self)); [| discriminate].
  intros [= _ <-]. reflexivity.
Qed.

Lemma load_saved (file : string) (reg : gmap string json) (w : world) :
  fs w !! file = Some (FJson (JDict reg)) ->
  _load_registry file w = (Ok (JDict reg), w).
Proof.
  intros Hf. unfold _load_registry, bind, os_path_exists.
  rewrite bool_decide_eq_true_2 by eauto.
  unfold Mtry, json_load_text. rewrite Hf. reflexivity.
Qed.

(** X12. Disk follows memory: whenever [register_artist], [update_artist]
    or [delete_artist] returns [True], reloading the registry file gives
    exactly the registry the object then holds. *)
Theorem successful_mutation_is_persisted (self : KeyRegistry) (artist_id pk : string)
    (public_key name contact description token : option string) (w : world) :
  (forall self' w',
     register_artist self artist_id pk name contact description token w
     = (Ok true, self', w') ->
     _load_registry (registry_file self') w' = (Ok (JDict (registry self')), w')) /\
  (forall self' w',
     update_artist self artist_id public_key name contact description w
     = (Ok true, self', w') ->
     _load_registry (registry_file self') w' = (Ok (JDict (registry self')), w')) /\
  (forall self' w',
     delete_artist self artist_id w = (Ok true, self', w') ->
     _load_registry (registry_file self') w' = (Ok (JDict (registry self')), w')).
Proof.
  split; [| split].
  - intros self' w'. unfold register_artist.
    destruct (bool_decide _); [discriminate |].
    unfold datetime_now.
    match goal with
    | |- context [_save_registry ?s ?u] =>
        destruct (_save_registry s u) as [[[] | e] w3] eqn:Hsave
    end; [| discriminate].
    intros [= <- <-]. apply save_registry_ok in Hsave. subst w3.
    apply load_saved. cbn [set_fs fs registry registry_file]. apply lookup_insert_eq.
  - intros self' w'. unfold update_artist.
    destruct (registry self !! artist_id) as [[| | | | | | entry] |];
      try discriminate;
      try (destruct (_ || _); discriminate).
    unfold datetime_now.
    match goal with
    | |- context [_save_registry ?s ?u] =>
        destruct (_save_registry s u) as [[[] | e] w3] eqn:Hsave
    end; [| discriminate].
    intros [= <- <-]. apply save_registry_ok in Hsave. subst w3.
    apply load_saved. cbn [set_fs fs registry registry_file]. apply lookup_insert_eq.
  - intros self' w'. unfold delete_artist.
    destruct (bool_decide _); [| discriminate].
    match goal with
    | |- context [_save_registry ?s ?u] =>
        destruct (_save_registry s u) as [[[] | e] w3] eqn:Hsave
    end; [| discriminate].
    intros [= <- <-]. apply save_registry_ok in Hsave. subst w3.
    apply load_saved. cbn [set_fs fs registry registry_file]. apply lookup_insert_eq.
Qed.

(** X13. A registry file without a directory part cannot be saved
    ([os.makedirs("")] raises): registering a new artist then raises, writes
    nothing, and yet leaves the artist in the registry held in memory, so
    that registering the same id again returns [False]. *)
Theorem failed_save_keeps_entry (self : KeyRegistry) (artist_id public_key : string)
    (name contact description token : option string) (w : world) :
  os_path_dirname (registry_file self) = "" ->
  registry self !! artist_id = None ->
  let out := register_artist self artist_id public_key name contact description token w in
  let self' := snd (fst out) in
  let w' := snd out in
  fst (fst out) = Raise OSError /\
  fs w' = fs w /\
  is_Some (get_artist_key self' artist_id) /\
  forall public_key2 name2 contact2 description2 token2,
    register_artist self' artist_id public_key2 name2 contact2 description2 token2 w'
    = (Ok false, self', w').
Proof.
  intros Hdir Habs. cbv zeta.
  destruct (register_artist self artist_id public_key name contact description token w)
    as [[r self'] w'] eqn:Hrun.
  cbn [fst snd]. unfold register_artist in Hrun.
  rewrite Habs, bool_decide_eq_false_2 in Hrun by (intros [? ?]; discriminate).
  unfold datetime_now in Hrun. rewrite save_registry_cases in Hrun.
  cbn [registry_file] in Hrun. rewrite Hdir in Hrun. cbn [String.eqb] in Hrun.
  injection Hrun as <- <- <-. cbn [fs].
  split; [reflexivity |]. split; [reflexivity |].
  unfold get_artist_key. cbn [registry]. rewrite lookup_insert_eq.
  split; [eauto |]. intros pk2 n2 c2 d2 t2.
  unfold register_artist. cbn [registry].
  rewrite lookup_insert_eq, bool_decide_eq_true_2 by eauto. reflexivity.
Qed.

(** X14. [delete_artist] removes one entry and touches no other: for an
    absent id it returns [False] and changes nothing; for a present id the
    registry in memory is the old one without that id (also when saving
    raises), and it never returns [False]. *)
Theorem delete_removes_one_entry (self : KeyRegistry) (artist_id : string) (w : world) :
  let out := delete_artist self artist_id w in
  let self' := snd (fst out) in
  (registry self !! artist_id = None -> out = (Ok false, self, w)) /\
  (is_Some (registry self !! artist_id) ->
   fst (fst out) <> Ok false /\
   registry self' = delete artist_id (registry self)) /\
  get_artist_key self' artist_id = None /\
  (forall other, other <> artist_id ->
     get_artist_key self' other = get_artist_key self other).
Proof.
  cbv zeta. unfold delete_artist, get_artist_key.
  destruct (registry self !! artist_id) as [old |] eqn:Hold.
  - rewrite bool_decide_eq_true_2 by eauto.
    destruct (_save_registry _ w) as [[[] | e] w1]; cbn [fst snd registry];
      (split; [discriminate |]);
      (split; [intros _; split; [discriminate | reflexivity] |]);
      (split; [apply lookup_delete_eq |]);
      intros other Hne; apply lookup_delete_ne; congruence.
  - rewrite bool_decide_eq_false_2 by (intros [? ?]; discriminate). cbn [fst snd].
    split; [reflexivity |]. split; [intros [? ?]; discriminate |].
    split; [exact Hold | reflexivity].
Qed.

(** X15. Registering a new artist and deleting it again restores the
    registry: when the file can be saved, memory and disk both hold the
    registry as it was before the registration. *)
Theorem register_then_delete_restores (self : KeyRegistry) (artist_id public_key : string)
    (name contact description token : option string) (w : world) :
  registry self !! artist_id = None ->
  os_path_dirname (registry_file self) <> "" ->
  writable (os_path_dirname (registry_file self)) = true ->
  writable (registry_file self) = true ->
  let out1 := register_artist self artist_id public_key name contact description token w in
  let out2 := delete_artist (snd (fst out1)) artist_id (snd out1) in
  fst (fst out1) = Ok true /\
  fst (fst out2) = Ok true /\
  registry (snd (fst out2)) = registry self /\
  _load_registry (registry_file self) (snd out2) = (Ok (JDict (registry self)), snd out2).
Proof.
  intros Habs Hdir Hwd Hwf. cbv zeta.
  apply String.eqb_neq in Hdir.
  unfold register_artist.
  rewrite Habs, bool_decide_eq_false_2 by (intros [? ?]; discriminate).
  unfold datetime_now. rewrite save_registry_cases.
  cbn [registry_file registry]. rewrite Hdir, Hwd, Hwf. cbn [fst snd].
  split; [reflexivity |].
  unfold delete_artist. cbn [registry registry_file].
  rewrite lookup_insert_eq, bool_decide_eq_true_2 by eauto.
  rewrite save_registry_cases. cbn [registry_file registry].
  rewrite Hdir, Hwd, Hwf. cbn [fst snd registry].
  rewrite delete_insert_id by exact Habs.
  split; [reflexivity |]. split; [reflexivity |].
  apply load_saved. cbn [set_fs fs]. apply lookup_insert_eq.
Qed.

Lemma set_field_same (key : string) (value : option string) (entry : gmap string json) :
  set_field key value entry !! key = field_after value (entry !! key).
Proof.
  unfold set_field, field_after. destruct value as [s |]; [| reflexivity].
  destruct (String.eqb s ""); [reflexivity | apply lookup_insert_eq].
Qed.

Lemma set_field_other (key k : string) (value : option string) (entry : gmap string json) :
  k <> key -> set_field key value entry !! k = entry !! k.
Proof.
  intros Hne. unfold set_field. destruct value as [s |]; [| reflexivity].
  destruct (String.eqb s ""); [reflexivity | apply lookup_insert_ne; congruence].
Qed.

(** X16. [update_artist] returns [False] and changes nothing for an unknown
    id.  For a known id whose entry is a dictionary it replaces exactly the
    fields given as non-empty strings (an empty string or [None] leaves a
    field as it is, so no field can be cleared), stamps [last_updated],
    keeps every other field (as [registered_at]) and every other artist, and
    never returns [False]. *)
Theorem update_changes_only_given_fields (self : KeyRegistry) (artist_id : string)
    (public_key name contact description : option string) (w : world) :
  let out := update_artist self artist_id public_key name contact description w in
  let self' := snd (fst out) in
  (registry self !! artist_id = None -> out = (Ok false, self, w)) /\
  (forall other, other <> artist_id ->
     get_artist_key self' other = get_artist_key self other) /\
  (forall entry,
     registry self !! artist_id = Some (JDict entry) ->
     fst (fst out) <> Ok false /\
     exists entry',
       get_artist_key self' artist_id = Some (JDict entry') /\
       entry' !! "public_key" = field_after public_key (entry !! "public_key") /\
       entry' !! "artist_name" = field_after name (entry !! "artist_name") /\
       entry' !! "contact_info" = field_after contact (entry !! "contact_info") /\
       entry' !! "description" = field_after description (entry !! "description") /\
       entry' !! "last_updated" = Some (JStr (isoformat (clock w))) /\
       (forall k, k <> "public_key" -> k <> "artist_name" -> k <> "contact_info" ->
                  k <> "description" -> k <> "last_updated" ->
                  entry' !! k = entry !! k)).
Proof.
  cbv zeta. unfold update_artist, get_artist_key.
  destruct (registry self !! artist_id) as [old |] eqn:Hold.
  2: { cbn [fst snd]. split; [reflexivity |]. split; [reflexivity |]. discriminate. }
  split; [discriminate |].
  destruct old as [| b | z | x | s | l | entry];
    try (split; [intros other Hne; destruct (_ || _); reflexivity | discriminate]).
  unfold datetime_now.
  match goal with
  | |- context [_save_registry ?s ?u] => destruct (_save_registry s u) as [[[] | e] w2]
  end; cbn [fst snd registry].
  all: split; [intros other Hne; apply lookup_insert_ne; congruence |].
  all: intros entry0 [= <-]; split; [discriminate |].
  all: eexists; split; [apply lookup_insert_eq |].
  all: repeat split.
  all: try (rewrite lookup_insert_ne by discriminate;
            repeat (rewrite set_field_other by discriminate);
            rewrite set_field_same;
            repeat (rewrite set_field_other by discriminate);
            reflexivity).
  all: try apply lookup_insert_eq.
  all: intros k H1 H2 H3 H4 H5; rewrite lookup_insert_ne by congruence;
       repeat (rewrite set_field_other by congruence); reflexivity.
Qed.

End RegistryFacts.

(** ** Authentication tokens *)

Section AuthFacts.
Context {C : Crypto} {R : Runtime}.

(** X17. A token authorizes the artist it was created for, and nobody
    else, at every clock reading up to 24 hours after its creation.  At the
    first check after that it is refused and removed from the table, so it
    stays refused at every later check, whatever the clock then says. *)
Theorem token_lifetime (self : ArtistAuth) (artist_id public_key_pem : string)
    (w0 w1 w2 : world) :
  let token := fst (create_auth_token self artist_id public_key_pem w0) in
  let self1 := snd (create_auth_token self artist_id public_key_pem w0) in
  (time_time w1 <= time_time w0 + 86400 ->
   is_artist_authorized self1 artist_id token w1 = (true, self1) /\
   forall other, other <> artist_id ->
     is_artist_authorized self1 other token w1 = (false, self1)) /\
  (time_time w1 > time_time w0 + 86400 ->
   forall anyone,
     fst (is_artist_authorized self1 anyone token w1) = false /\
     let self2 := snd (is_artist_authorized self1 anyone token w1) in
     auth_tokens self2 !! token = None /\
     fst (verify_auth_token self2 token w2) = None /\
     forall someone, fst (is_artist_authorized self2 someone token w2) = false).
Proof.
  cbv zeta. unfold create_auth_token. cbn [fst snd].
  set (token := SHA256.hexdigest _).
  split.
  - intros Hin. unfold is_artist_authorized, verify_auth_token.
    cbn [auth_tokens secret_key]. rewrite lookup_insert_eq. cbn [td_expires_at td_artist_id].
    destruct (Z.gtb_spec (time_time w1) (time_time w0 + 24 * 60 * 60)); [lia |].
    cbn [td_artist_id]. rewrite String.eqb_refl. split; [reflexivity |].
    intros other Hne. apply not_eq_sym, String.eqb_neq in Hne. rewrite Hne. reflexivity.
  - intros Hout anyone. unfold is_artist_authorized, verify_auth_token.
    cbn [auth_tokens secret_key]. rewrite lookup_insert_eq. cbn [td_expires_at].
    destruct (Z.gtb_spec (time_time w1) (time_time w0 + 24 * 60 * 60)); [| lia].
    cbn [fst snd auth_tokens]. rewrite lookup_delete_eq.
    repeat split; reflexivity.
Qed.

(** X18. Revoking a token returns [True] exactly when the token is in the
    table; afterwards the token authorizes nobody at any time, a second
    revocation returns [False], and every other token is untouched. *)
Theorem revoke_ends_authorization (self : ArtistAuth) (token : string) (w : world) :
  let revoked := fst (revoke_auth_token self token) in
  let self' := snd (revoke_auth_token self token) in
  (revoked = true <-> is_Some (auth_tokens self !! token)) /\
  fst (verify_auth_token self' token w) = None /\
  (forall anyone, fst (is_artist_authorized self' anyone token w) = false) /\
  revoke_auth_token self' token = (false, self') /\
  (forall other, other <> token ->
     auth_tokens self' !! other = auth_tokens self !! other).
Proof.
  cbv zeta. unfold revoke_auth_token.
  destruct (auth_tokens self !! token) as [data |] eqn:Hdata.
  - rewrite bool_decide_eq_true_2 by eauto. cbn [fst snd].
    unfold is_artist_authorized, verify_auth_token. cbn [auth_tokens].
    rewrite lookup_delete_eq.
    rewrite bool_decide_eq_false_2 by (intros [? ?]; discriminate).
    repeat split; eauto.
    intros other Hne. apply lookup_delete_ne. congruence.
  - rewrite bool_decide_eq_false_2 by (intros [? ?]; discriminate). cbn [fst snd].
    unfold is_artist_authorized, verify_auth_token. rewrite Hdata.
    rewrite bool_decide_eq_false_2 by (intros [? ?]; discriminate).
    repeat split; try reflexivity; try discriminate.
    intros [? ?]; discriminate.
Qed.

(** X19. A token is bound to the public key only through its first 50
    characters: for two keys that agree on them, tokens created for one
    artist at one clock reading are the same string, and creating the second
    replaces the key stored under the first, so the first token now answers
    with the second key. *)
Theorem token_ignores_key_tail (self : ArtistAuth) (artist_id pem1 pem2 : string)
    (w w' : world) :
  take_chars 50 pem1 = take_chars 50 pem2 ->
  let token1 := fst (create_auth_token self artist_id pem1 w) in
  let self1 := snd (create_auth_token self artist_id pem1 w) in
  let token2 := fst (create_auth_token self1 artist_id pem2 w) in
  let self2 := snd (create_auth_token self1 artist_id pem2 w) in
  token1 = token2 /\
  (time_time w' <= time_time w + 86400 ->
   exists data,
     fst (verify_auth_token self2 token1 w') = Some data /\
     td_public_key data = pem2 /\ td_artist_id data = artist_id).
Proof.
  intros Hprefix. cbv zeta. unfold create_auth_token. cbn [fst snd secret_key].
  rewrite Hprefix. split; [reflexivity |].
  intros Hin. unfold verify_auth_token. cbn [auth_tokens].
  rewrite lookup_insert_eq. cbn [td_expires_at].
  destruct (Z.gtb_spec (time_time w') (time_time w + 24 * 60 * 60)); [lia |].
  cbn [fst]. eauto.
Qed.

End AuthFacts.

(** ** Request handlers *)

Section HandlerFacts.
Context {G : BitGenerator} {C : Crypto} {H : Host} {R : Runtime}.

Lemma verify_artist_signature_true (artist_id challenge signature pem : string)
    (key : public_key) (bytes : list byte) :
  load_pem_public_key (encode pem) = Ok key ->
  b64decode signature = Ok bytes ->
  pss_verify key bytes (encode challenge) = Ok tt ->
  verify_artist_signature artist_id challenge signature pem = Ok true.
Proof.
  intros Hk Hb Hv. unfold verify_artist_signature, try_except.
  rewrite Hk. cbn [rbind]. rewrite Hb. cbn [rbind]. rewrite Hv. reflexivity.
Qed.

(** X20. [POST /verify-artist-signature] issues a token for the artist id
    named in the request as soon as the signature of the request's challenge
    verifies under the request's own public key: the registry is neither
    read nor changed, the challenge need not be one the server generated,
    and the token then authorizes that artist id for 24 hours. *)
Theorem any_key_authenticates_any_artist (app : app_state)
    (artist_id challenge signature pem : string) (key : public_key) (bytes : list byte)
    (w w1 : world) :
  load_pem_public_key (encode pem) = Ok key ->
  b64decode signature = Ok bytes ->
  pss_verify key bytes (encode challenge) = Ok tt ->
  let out := api_verify_artist_signature artist_id challenge signature pem app w in
  exists token,
    fst out = JSONResponse 200
                (JDict (list_to_map
                   [ ("authenticated", JBool true);
                     ("auth_token", JStr token);
                     ("message", JStr "Artist authenticated successfully") ])) /\
    app_registry (snd out) = app_registry app /\
    (time_time w1 <= time_time w + 86400 ->
     fst (is_artist_authorized (app_auth (snd out)) artist_id token w1) = true).
Proof.
  intros Hk Hb Hv. cbv zeta. unfold api_verify_artist_signature.
  rewrite (verify_artist_signature_true _ _ _ _ _ _ Hk Hb Hv).
  unfold create_auth_token. cbn [fst snd app_registry app_auth].
  eexists. split; [reflexivity |]. split; [reflexivity |].
  intros Hin. unfold is_artist_authorized, verify_auth_token.
  cbn [auth_tokens]. rewrite lookup_insert_eq. cbn [td_expires_at].
  destruct (Z.gtb_spec (time_time w1) (time_time w + 24 * 60 * 60)); [lia |].
  cbn [fst td_artist_id]. apply String.eqb_refl.
Qed.

(** X21. [POST /register-artist] asks for no proof when the token field is
    absent or empty: the token table is not consulted, and a new artist id
    is registered with the public key of the request (status 200) whenever
    the registry can be saved. *)
Theorem registration_without_token (app : app_state) (artist_id pem : string)
    (name contact description token : option string) (w : world) :
  py_truthy token = false ->
  registry (app_registry app) !! artist_id = None ->
  os_path_dirname (registry_file (app_registry app)) <> "" ->
  writable (os_path_dirname (registry_file (app_registry app))) = true ->
  writable (registry_file (app_registry app)) = true ->
  let out := api_register_artist artist_id pem name contact description token app w in
  fst (fst out)
  = JSONResponse 200
      (JDict (list_to_map
         [ ("message", JStr "Artist registered successfully");
           ("artist_id", JStr artist_id) ])) /\
  app_auth (snd (fst out)) = app_auth app /\
  exists entry,
    get_artist_key (app_registry (snd (fst out))) artist_id = Some (JDict entry) /\
    entry !! "public_key" = Some (JStr pem).
Proof.
  intros Htok Habs Hdir Hwd Hwf. cbv zeta. unfold api_register_artist.
  assert (match token with
          | Some t => if String.eqb t "" then (true, app_auth app)
                      else is_artist_authorized (app_auth app) artist_id t w
          | None => (true, app_auth app)
          end = (true, app_auth app)) as ->.
  { destruct token as [t |]; [| reflexivity].
    cbn [py_truthy] in Htok. destruct (String.eqb t ""); [reflexivity | discriminate Htok]. }
  apply String.eqb_neq in Hdir.
  unfold register_artist.
  rewrite Habs, bool_decide_eq_false_2 by (intros [? ?]; discriminate).
  unfold datetime_now. rewrite save_registry_cases.
  cbn [registry_file registry]. rewrite Hdir, Hwd, Hwf. cbn [fst snd app_auth app_registry].
  split; [reflexivity |]. split; [reflexivity |].
  unfold get_artist_key. cbn [registry]. rewrite lookup_insert_eq.
  eexists. split; [reflexivity |].
  unfold list_to_map. cbn [foldr fst snd]. apply lookup_insert_eq.
Qed.

(** X22. With a non-empty token that does not authorize the artist id,
    [POST /register-artist] answers 401 and leaves the registry and the
    world as they were. *)
Theorem refused_token_blocks_registration (app : app_state) (artist_id pem token : string)
    (name contact description : option string) (w : world) :
  token <> "" ->
  fst (is_artist_authorized (app_auth app) artist_id token w) = false ->
  let out := api_register_artist artist_id pem name contact description (Some token) app w in
  fst (fst out)
  = JSONResponse 401
      (JDict {[ "error" := JStr "Invalid or expired authentication token" ]}) /\
  app_registry (snd (fst out)) = app_registry app /\
  snd out = w.
Proof.
  intros Hne Hno. cbv zeta. unfold api_register_artist.
  apply String.eqb_neq in Hne. rewrite Hne.
  destruct (is_artist_authorized (app_auth app) artist_id token w) as [ok auth'].
  cbn [fst] in Hno. subst ok. cbn [fst snd app_registry]. auto.
Qed.

(** X23. [POST /verify-cryptographic] looks for the record next to the
    temporary file it has just created.  Unless a file already sits at that
    metadata path, no record is found: the answer is either an error (status
    500, the temporary file left behind) or a 200 whose [verified] and
    [signature_valid] are both false, with the temporary file removed,
    whatever the upload, the identity and the public key. *)
Theorem api_never_verifies_signature (upload : file) (id_str pem : string) (w : world) :
  let path := temp_path (fs w) ".wav" in
  fs w !! metadata_path_of path = None ->
  metadata_path_of path <> path ->
  let out := api_verify_audio_cryptographic upload id_str pem w in
  (exists message,
     fst out = error_response "Failed to verify cryptographic watermark: " message) \/
  (exists score,
     fst out = JSONResponse 200
                 (JDict (list_to_map
                    [ ("verified", JBool false);
                      ("score", JFloat score);
                      ("signature_valid", JBool false);
                      ("method", JStr "cryptographic") ])) /\
     fs (snd out) !! path = None /\
     forall p, p <> path -> fs (snd out) !! p = fs w !! p).
Proof.
  intros path Hmissing Hdiff. cbv zeta. unfold api_verify_audio_cryptographic.
  fold path. destruct (writable path); [| left; eauto].
  set (w1 := set_fs (<[path := upload]> (fs w)) w).
  destruct (detect_watermark_with_signature path id_str pem w1) as [[r | e] w2] eqn:Hrun;
    [| left; eauto].
  assert (w2 = w1) as ->.
  { pose proof (preserves_detect_signed path id_str pem w1) as Hp.
    rewrite Hrun in Hp. exact Hp. }
  pose proof (f_equal fst Hrun) as Hfst. cbn [fst] in Hfst.
  destruct (detect_signed_returns _ _ _ _ _ Hfst) as (y & yn & Hf & Hn).
  destruct (detect_signed_run w1 path id_str pem y yn Hf Hn)
    as (sv & material & c & _ & Hrun' & Hiff & _).
  assert (sv = false) as ->.
  { destruct sv; [| reflexivity].
    destruct (proj1 Hiff eq_refl) as (d & Hd & _).
    subst w1. cbn [set_fs fs] in Hd.
    rewrite lookup_insert_ne in Hd by congruence. congruence. }
  rewrite Hrun' in Hrun. injection Hrun as <-. cbn [fst snd andb].
  destruct (json_response 200 _) as [resp | e] eqn:Hresp; [| left; eauto].
  right. unfold json_response in Hresp.
  destruct (forallb _ _); [| discriminate Hresp]. injection Hresp as <-.
  eexists. split; [reflexivity |]. cbn [snd set_fs fs]. subst w1. cbn [set_fs fs].
  split; [apply lookup_delete_eq |].
  intros p Hp. rewrite lookup_delete_ne, lookup_insert_ne by congruence. reflexivity.
Qed.

(** Content whose values are all finite is rendered. *)
Lemma json_response_ok (status_code : Z) (content : gmap string json) :
  (forall k v, content !! k = Some v -> finite_value v = true) ->
  json_response status_code content = Ok (JSONResponse status_code (JDict content)).
Proof.
  intros Hall. unfold json_response.
  destruct (forallb _ _) eqn:Hfin; [reflexivity |].
  assert (forallb (fun kv : string * json => finite_value (snd kv)) (map_to_list content)
          = true) as Htrue; [| congruence].
  apply forallb_forall. intros [k v] Hin.
  apply list_elem_of_In, elem_of_map_to_list in Hin. exact (Hall k v Hin).
Qed.

Lemma score_is_finite (c : spec_float) :
  Np.isnan c = false -> SFleb (SFopp Np.one) c = true -> SFleb c Np.one = true ->
  finite_value (JFloat c) = true.
Proof.
  intros Hnan Hlo Hhi. destruct c as [s | [|] | | s m e]; try reflexivity; discriminate.
Qed.

(** X24. [POST /verify] answers 200 exactly for an upload that decodes to
    a non-empty signal (given that the temporary file can be created): the
    score it reports is then a number in [-1, 1], never NaN, the verdict is
    the comparison of that score with 0.001, and the temporary file is gone.
    For every other upload it answers 500 and leaves the upload on disk. *)
Theorem verify_endpoint_answers (upload : file) (id_str secret : string) (w : world) :
  let path := temp_path (fs w) ".wav" in
  writable path = true ->
  let out := api_verify_audio upload id_str secret w in
  ((exists y, upload = FAudio y /\ y <> []) ->
   exists score,
     fst out = JSONResponse 200
                 (JDict (list_to_map
                    [ ("verified", JBool (Np.gt score threshold));
                      ("score", JFloat score);
                      ("method", JStr "traditional") ])) /\
     Np.isnan score = false /\
     SFleb (SFopp Np.one) score = true /\ SFleb score Np.one = true /\
     fs (snd out) !! path = None /\
     forall p, p <> path -> fs (snd out) !! p = fs w !! p) /\
  (~ (exists y, upload = FAudio y /\ y <> []) ->
   exists message,
     fst out = error_response "Failed to verify watermark: " message /\
     snd out = set_fs (<[path := upload]> (fs w)) w).
Proof.
  intros path Hw. cbv zeta. unfold api_verify_audio. fold path. rewrite Hw.
  set (w1 := set_fs (<[path := upload]> (fs w)) w).
  assert (fs w1 !! path = Some upload) as Hf by (subst w1; cbn [set_fs fs]; apply lookup_insert_eq).
  split.
  - intros (y & -> & Hne).
    destruct (normalize_nonempty y Hne) as (peak & _ & Hn).
    rewrite (detect_watermark_run _ _ _ _ _ _ Hf Hn).
    unfold correlation, Np.corrcoef01.
    rewrite generate_pattern_length, Nat.eqb_refl. cbn [rbind].
    match goal with
    | |- context [Np.nan_to_zero (Np.clip ?x _ _)] =>
        destruct (clipped_in_range x) as (Hnan & Hlo & Hhi);
        set (c := Np.nan_to_zero (Np.clip x (SFopp Np.one) Np.one)) in *
    end.
    cbn [fst snd]. rewrite json_response_ok.
    + exists c. cbn [fst snd set_fs fs]. subst w1. cbn [set_fs fs].
      split; [reflexivity |]. split; [exact Hnan |]. split; [exact Hlo |].
      split; [exact Hhi |]. split; [apply lookup_delete_eq |].
      intros p Hp. rewrite lookup_delete_ne, lookup_insert_ne by congruence. reflexivity.
    + intros k v Hkv. apply elem_of_list_to_map_2 in Hkv.
      repeat (apply elem_of_cons in Hkv as [[= -> ->] | Hkv];
              [first [reflexivity | apply score_is_finite; assumption] |]).
      apply elem_of_nil in Hkv. destruct Hkv.
  - intros Hnot.
    assert (exists e, detect_watermark path id_str secret w1 = (Raise e, w1)) as (e & ->).
    { unfold detect_watermark, bind at 1, librosa_load. rewrite Hf.
      destruct upload as [y | j |]; [| eauto | eauto].
      destruct y as [| x y].
      - unfold bind at 1, lift at 1. rewrite normalize_empty. eauto.
      - exfalso. apply Hnot. exists (x :: y). split; [reflexivity | discriminate]. }
    cbn [fst snd]. eauto.
Qed.

(** X25. Lookup serves what registration stored: an id that is not in the
    registry is answered with 404; once [register_artist] has run for it
    (also when saving the file raised), [GET /lookup-artist] answers 200
    with the registered public key, the given name or else the id, the
    contact and description or else empty strings, and the time of
    registration. *)
Theorem lookup_after_register (app : app_state) (artist_id pem : string)
    (name contact description token : option string) (w : world) :
  registry (app_registry app) !! artist_id = None ->
  let out := register_artist (app_registry app) artist_id pem name contact description
               token w in
  let app' := {| app_registry := snd (fst out); app_auth := app_auth app |} in
  api_lookup_artist artist_id app
  = JSONResponse 404
      (JDict (list_to_map [ ("found", JBool false); ("error", JStr "Artist not found") ])) /\
  api_lookup_artist artist_id app'
  = JSONResponse 200
      (JDict (list_to_map
         [ ("found", JBool true);
           ("artist_id", JStr artist_id);
           ("artist_name", JStr (py_or name artist_id));
           ("public_key", JStr pem);
           ("contact_info", JStr (py_or contact ""));
           ("description", JStr (py_or description ""));
           ("registered_at", JStr (isoformat (clock w))) ])).
Proof.
  intros Habs. cbv zeta. split.
  - unfold api_lookup_artist, get_artist_key. rewrite Habs.
    rewrite json_response_ok; [reflexivity |].
    intros k v Hkv. apply elem_of_list_to_map_2 in Hkv.
    repeat (apply elem_of_cons in Hkv as [[= -> ->] | Hkv]; [reflexivity |]).
    apply elem_of_nil in Hkv. destruct Hkv.
  - unfold register_artist.
    rewrite Habs, bool_decide_eq_false_2 by (intros [? ?]; discriminate).
    unfold datetime_now.
    match goal with
    | |- context [_save_registry ?s ?u] => destruct (_save_registry s u) as [[[] | e] w3]
    end; cbn [fst snd].
    all: unfold api_lookup_artist, get_artist_key; cbn [app_registry registry].
    all: rewrite lookup_insert_eq.
    all: unfold py_bool, list_to_map; cbn [foldr fst snd].
    all: rewrite bool_decide_eq_false_2 by apply insert_non_empty.
    all: cbn [negb py_getitem].
    all: repeat (rewrite ?lookup_insert_eq;
                 repeat (rewrite lookup_insert_ne by discriminate);
                 rewrite ?lookup_insert_eq; cbn [of_option rbind]).
    all: rewrite json_response_ok; [reflexivity |].
    all: intros k v Hkv.
    all: repeat (apply lookup_insert_Some in Hkv as [[_ <-] | [_ Hkv]]; [reflexivity |]).
    all: rewrite lookup_empty in Hkv; discriminate Hkv.
Qed.

(** X26. [POST /embed] never cleans up after itself.  When it answers with
    a file, that file sits beside the removed upload, holds as many samples
    as the upload, and stays on disk; every other path is untouched.  When
    it answers 500 (given that the temporary file could be created), the
    upload itself stays on disk. *)
Theorem embed_endpoint_files (upload : file) (id_str secret : string) (w : world) :
  let input_path := temp_path (fs w) ".wav" in
  let output_path := str_replace ".wav" "_marked.wav" input_path in
  writable input_path = true ->
  output_path <> input_path ->
  let out := api_embed_audio upload id_str secret w in
  (exists message,
     fst out = error_response "Failed to embed watermark: " message /\
     snd out = set_fs (<[input_path := upload]> (fs w)) w) \/
  (fst out = FileResponse output_path "marked.wav" "audio/wav" /\
   exists y stored,
     upload = FAudio y /\ y <> [] /\
     fs (snd out) !! output_path = Some (FAudio stored) /\
     length stored = length y /\
     fs (snd out) !! input_path = None /\
     forall p, p <> input_path -> p <> output_path -> fs (snd out) !! p = fs w !! p).
Proof.
  intros input_path output_path Hw Hdiff. cbv zeta. unfold api_embed_audio.
  fold input_path. fold output_path. rewrite Hw.
  set (w1 := set_fs (<[input_path := upload]> (fs w)) w).
  assert (fs w1 !! input_path = Some upload) as Hf
    by (subst w1; cbn [set_fs fs]; apply lookup_insert_eq).
  assert ((exists x y, upload = FAudio (x :: y)) \/
          exists e, embed_watermark input_path output_path id_str secret w1 = (Raise e, w1))
    as [(x & y & ->) | (e & ->)]; [| | left; cbn [fst snd]; eauto].
  { unfold embed_watermark, bind at 1, librosa_load. rewrite Hf.
    destruct upload as [y | j |]; [| eauto | eauto].
    destruct y as [| x y]; [| eauto].
    right. unfold bind at 1, lift at 1. rewrite normalize_empty. eauto. }
  destruct (normalize_nonempty (x :: y)) as (peak & _ & Hn); [discriminate |].
  rewrite (embed_watermark_run _ _ _ _ _ _ _ Hf Hn).
  destruct (writable output_path); [| left; eauto].
  right. cbn [fst snd set_fs fs]. split; [reflexivity |].
  eexists (x :: y), _. split; [reflexivity |]. split; [discriminate |].
  split; [rewrite lookup_delete_ne by congruence; apply lookup_insert_eq |].
  split.
  { rewrite length_map. unfold mix. rewrite length_zip_with_l_eq.
    - apply (normalize_length _ _ Hn).
    - symmetry. apply generate_pattern_length. }
  split; [apply lookup_delete_eq |].
  intros p Hp1 Hp2. subst w1. cbn [set_fs fs].
  rewrite lookup_delete_ne, !lookup_insert_ne by congruence. reflexivity.
Qed.

End HandlerFacts.

(** ** The further properties on concrete runs *)

Section FurtherRuns.
Import Fixture Scenario.
Existing Instance lcg.
Existing Instance mac.
Existing Instance host.
Existing Instance runtime.

Lemma signed_embed_without_record_witness :
  writable (Host := host_locked) "out.wav" = true /\
  writable (Host := host_locked) (metadata_path_of "out.wav") = false /\
  let out := embed_watermark_with_signature (H := host_locked)
               "in.wav" "out.wav" "artist_1" "KEY" w0 in
  fst out = Raise OSError /\
  (exists stored, fs (snd out) !! "out.wav" = Some (FAudio stored) /\
                  length stored = length samples5) /\
  fs (snd out) !! metadata_path_of "out.wav" = fs w0 !! metadata_path_of "out.wav" /\
  entropy (snd out) = N.succ (entropy w0).
Proof.
  split; [reflexivity |]. split; [reflexivity |]. intros out.
  edestruct (signed_embed_without_record (H := host_locked)
               w0 "in.wav" "out.wav" "artist_1" "KEY" samples5)
    as (Hret & Hstored & Hmeta & Hdrawn & _).
  - vm_compute; reflexivity.
  - vm_compute; reflexivity.
  - vm_compute; reflexivity.
  - vm_compute; reflexivity.
  - vm_compute; reflexivity.
  - vm_compute; reflexivity.
  - split; [exact Hret |]. split; [exact Hstored |]. split; [exact Hmeta | exact Hdrawn].
Defined.

Lemma signed_embed_overwrites_audio_witness :
  str_contains ".wav" "out.flac" = false /\
  let out := embed_watermark_with_signature "in.wav" "out.flac" "artist_1" "KEY" w0 in
  fst out = Ok "out.flac" /\
  (exists record, fs (snd out) !! "out.flac" = Some (FJson record)) /\
  fst (detect_watermark_with_signature "out.flac" "artist_1" "KEY" (snd out))
  = Raise LibraryError /\
  fst (detect_watermark "out.flac" "artist_1" "s3cret" (snd out)) = Raise LibraryError.
Proof.
  split; [reflexivity |]. intros out.
  edestruct (signed_embed_overwrites_audio w0 "in.wav" "out.flac" "artist_1" "KEY" samples5)
    as (Hret & Hfile & Hsigned & Hplain).
  - vm_compute; reflexivity.
  - vm_compute; reflexivity.
  - vm_compute; reflexivity.
  - vm_compute; reflexivity.
  - vm_compute; reflexivity.
  - vm_compute; reflexivity.
  - split; [exact Hret |]. split; [eexists; exact Hfile |].
    split; [apply Hsigned | apply Hplain].
Defined.


Lemma signed_verdict_needs_valid_record_witness :
  fst (detect_watermark_with_signature "out.wav" "artist_1" "KEY" w_tampered)
  = Ok (true, Np.one, true) /\
  exists d,
    fs w_tampered !! metadata_path_of "out.wav" = Some (FJson (JDict d)) /\
    d !! "watermark_type" = Some (JStr "cryptographic").
Proof.
  assert (fst (detect_watermark_with_signature "out.wav" "artist_1" "KEY" w_tampered)
          = Ok (true, Np.one, true)) as Hrun by (vm_compute; reflexivity).
  split; [exact Hrun |].
  destruct (signed_verdict_needs_valid_record _ _ _ _ _ _ Hrun)
    as (_ & d & key & bytes & Hd & Hkind & _).
  exists d. split; assumption.
Defined.

Lemma invalid_signature_is_fallback_witness :
  exists score corr unsigned_verdict,
    fst (detect_watermark_with_signature "in.wav" "artist_1" "KEY" w0)
    = Ok (false, score, false) /\
    detect_watermark "in.wav" "artist_1" "fallback" w0 = (Ok (unsigned_verdict, corr), w0) /\
    score = Np.div64 (Np.add64 corr Np.zero) Np.two.
Proof.
  assert (fst (detect_watermark_with_signature "in.wav" "artist_1" "KEY" w0)
          = Ok (false, S754_finite false 6748318792206715 (-56), false)) as Hrun
    by (vm_compute; reflexivity).
  destruct (invalid_signature_is_fallback _ _ _ _ _ _ Hrun) as (_ & v & corr & Hd & Hs).
  eexists _, corr, v. split; [exact Hrun |]. split; assumption.
Defined.

Lemma unsigned_score_range_witness :
  exists score,
    fst (detect_watermark "in.wav" "artist_1" "s3cret" w0) = Ok (false, score) /\
    Np.isnan score = false /\
    SFleb (SFopp Np.one) score = true /\ SFleb score Np.one = true.
Proof.
  assert (fst (detect_watermark "in.wav" "artist_1" "s3cret" w0)
          = Ok (false, S754_finite true 4844797184002937 (-53))) as Hrun
    by (vm_compute; reflexivity).
  destruct (unsigned_score_range _ _ _ _ _ _ Hrun) as (Hnan & Hlo & Hhi & _).
  eexists. split; [exact Hrun |]. split; [exact Hnan |]. split; assumption.
Defined.

Lemma seed_uses_last_four_bytes_witness :
  "k4908" <> "k76348" /\
  pattern_seed ("artist_1" +:+ "k4908") = pattern_seed ("artist_1" +:+ "k76348") /\
  detect_watermark "in.wav" "artist_1" "k4908" w0
  = detect_watermark "in.wav" "artist_1" "k76348" w0.
Proof.
  split; [discriminate |].
  destruct (seed_uses_last_four_bytes "artist_1" "k4908" "artist_1" "k76348")
    as (Hseed & Hdetect & _).
  - vm_compute; reflexivity.
  - split; [exact Hseed | apply Hdetect].
Defined.

Lemma concatenation_is_ambiguous_witness :
  "artist_1" <> "artist_12" /\
  detect_watermark "in.wav" "artist_1" "2abc" w0
  = detect_watermark "in.wav" "artist_12" "abc" w0.
Proof.
  split; [discriminate |].
  destruct (concatenation_is_ambiguous "artist_1" "2abc" "artist_12" "abc")
    as (Hdetect & _).
  - vm_compute; reflexivity.
  - apply Hdetect.
Defined.

Lemma hybrid_method_and_verdict_witness :
  exists score signature_valid,
    fst (detect_watermark_hybrid "out.wav" "artist_1" "KEY" true w_signed)
    = Ok (false, score, "cryptographic") /\
    fst (detect_watermark_with_signature "out.wav" "artist_1" "KEY" w_signed)
    = Ok (false, score, signature_valid).
Proof.
  assert (fst (detect_watermark_hybrid "out.wav" "artist_1" "KEY" true w_signed)
          = Ok (false, S754_finite false 7041145795260864 (-58), "cryptographic")) as Hrun
    by (vm_compute; reflexivity).
  destruct (hybrid_method_and_verdict _ _ _ _ _ _ _ _ Hrun) as (_ & Hpair).
  destruct (Hpair eq_refl) as (sv & Hsigned & _).
  eexists _, sv. split; [exact Hrun | exact Hsigned].
Defined.

Lemma failed_save_keeps_entry_witness :
  let out := register_artist registry_flat "artist_2" "PEM" None None None None w0 in
  fst (fst out) = Raise OSError /\
  fs (snd out) = fs w0 /\
  is_Some (get_artist_key (snd (fst out)) "artist_2").
Proof.
  intros out.
  destruct (failed_save_keeps_entry registry_flat "artist_2" "PEM" None None None None w0)
    as (Hret & Hfs & Hkept & _).
  - vm_compute; reflexivity.
  - vm_compute; reflexivity.
  - split; [exact Hret |]. split; [exact Hfs | exact Hkept].
Defined.

Lemma register_then_delete_restores_witness :
  let out1 := register_artist registry0 "artist_2" "PEM" None None None None w0 in
  let out2 := delete_artist (snd (fst out1)) "artist_2" (snd out1) in
  fst (fst out1) = Ok true /\
  fst (fst out2) = Ok true /\
  registry (snd (fst out2)) = registry registry0 /\
  _load_registry (registry_file registry0) (snd out2)
  = (Ok (JDict (registry registry0)), snd out2).
Proof.
  apply (register_then_delete_restores registry0 "artist_2" "PEM" None None None None w0).
  - vm_compute; reflexivity.
  - discriminate.
  - vm_compute; reflexivity.
  - vm_compute; reflexivity.
Defined.

Lemma token_ignores_key_tail_witness :
  pem_a <> pem_b /\
  fst (create_auth_token auth0 "artist_1" pem_a w0)
  = fst (create_auth_token (snd (create_auth_token auth0 "artist_1" pem_a w0))
           "artist_1" pem_b w0).
Proof.
  split; [discriminate |].
  destruct (token_ignores_key_tail auth0 "artist_1" pem_a pem_b w0 w0) as (Hsame & _).
  - vm_compute; reflexivity.
  - exact Hsame.
Defined.

Lemma any_key_authenticates_any_artist_witness :
  let out := api_verify_artist_signature "artist_1" "any text" signed_challenge "KEY"
               app0 w0 in
  exists token,
    fst out = JSONResponse 200
                (JDict (list_to_map
                   [ ("authenticated", JBool true);
                     ("auth_token", JStr token);
                     ("message", JStr "Artist authenticated successfully") ])) /\
    app_registry (snd out) = app_registry app0 /\
    (time_time w0 <= time_time w0 + 86400 ->
     fst (is_artist_authorized (app_auth (snd out)) "artist_1" token w0) = true).
Proof.
  eapply (any_key_authenticates_any_artist app0 "artist_1" "any text" signed_challenge "KEY").
  - vm_compute; reflexivity.
  - vm_compute; reflexivity.
  - vm_compute; reflexivity.
Defined.

Lemma registration_without_token_witness :
  let out := api_register_artist "artist_2" "PEM" None None None None app0 w0 in
  fst (fst out)
  = JSONResponse 200
      (JDict (list_to_map
         [ ("message", JStr "Artist registered successfully");
           ("artist_id", JStr "artist_2") ])) /\
  app_auth (snd (fst out)) = app_auth app0 /\
  exists entry,
    get_artist_key (app_registry (snd (fst out))) "artist_2" = Some (JDict entry) /\
    entry !! "public_key" = Some (JStr "PEM").
Proof.
  apply (registration_without_token app0 "artist_2" "PEM" None None None None w0).
  - vm_compute; reflexivity.
  - vm_compute; reflexivity.
  - discriminate.
  - vm_compute; reflexivity.
  - vm_compute; reflexivity.
Defined.

Lemma refused_token_blocks_registration_witness :
  let out := api_register_artist "artist_2" "PEM" None None None (Some "bogus") app0 w0 in
  fst (fst out)
  = JSONResponse 401
      (JDict {[ "error" := JStr "Invalid or expired authentication token" ]}) /\
  app_registry (snd (fst out)) = app_registry app0 /\
  snd out = w0.
Proof.
  apply (refused_token_blocks_registration app0 "artist_2" "PEM" "bogus" None None None w0).
  - discriminate.
  - vm_compute; reflexivity.
Defined.

Lemma api_never_verifies_signature_witness :
  exists score,
    fst (api_verify_audio_cryptographic (FAudio samples5) "artist_1" "KEY" w0)
    = JSONResponse 200
        (JDict (list_to_map
           [ ("verified", JBool false);
             ("score", JFloat score);
             ("signature_valid", JBool false);
             ("method", JStr "cryptographic") ])).
Proof.
  destruct (api_never_verifies_signature (FAudio samples5) "artist_1" "KEY" w0)
    as [(message & Herr) | (score & Hret & _)].
  - vm_compute; reflexivity.
  - vm_compute. discriminate.
  - vm_compute in Herr. discriminate Herr.
  - exists score. exact Hret.
Defined.

Lemma verify_endpoint_answers_witness :
  writable (temp_path (fs w0) ".wav") = true /\
  exists score,
    fst (api_verify_audio (FAudio samples5) "artist_1" "s3cret" w0)
    = JSONResponse 200
        (JDict (list_to_map
           [ ("verified", JBool (Np.gt score threshold));
             ("score", JFloat score);
             ("method", JStr "traditional") ])) /\
    fs (snd (api_verify_audio (FAudio samples5) "artist_1" "s3cret" w0))
      !! temp_path (fs w0) ".wav" = None.
Proof.
  split; [vm_compute; reflexivity |].
  destruct (verify_endpoint_answers (FAudio samples5) "artist_1" "s3cret" w0) as (Hgood & _).
  - vm_compute; reflexivity.
  - destruct Hgood as (score & Hret & _ & _ & _ & Hgone & _).
    + exists samples5. split; [reflexivity | discriminate].
    + exists score. split; [exact Hret | exact Hgone].
Defined.

Lemma lookup_after_register_witness :
  registry (app_registry app0) !! "artist_2" = None /\
  let out := register_artist (app_registry app0) "artist_2" "PEM" (Some "Ann") None None
               None w0 in
  let app' := {| app_registry := snd (fst out); app_auth := app_auth app0 |} in
  api_lookup_artist "artist_2" app0
  = JSONResponse 404
      (JDict (list_to_map [ ("found", JBool false); ("error", JStr "Artist not found") ])) /\
  api_lookup_artist "artist_2" app'
  = JSONResponse 200
      (JDict (list_to_map
         [ ("found", JBool true);
           ("artist_id", JStr "artist_2");
           ("artist_name", JStr (py_or (Some "Ann") "artist_2"));
           ("public_key", JStr "PEM");
           ("contact_info", JStr (py_or None ""));
           ("description", JStr (py_or None ""));
           ("registered_at", JStr (isoformat (clock w0))) ])).
Proof.
  split; [reflexivity |].
  apply (lookup_after_register app0 "artist_2" "PEM" (Some "Ann") None None None w0).
  reflexivity.
Defined.

Lemma embed_endpoint_files_witness :
  let out := api_embed_audio (FAudio samples5) "artist_1" "s3cret" w0 in
  fst out = FileResponse "/tmp/tmpa1b2c3_marked.wav" "marked.wav" "audio/wav" /\
  fs (snd out) !! "/tmp/tmpa1b2c3.wav" = None /\
  exists stored,
    fs (snd out) !! "/tmp/tmpa1b2c3_marked.wav" = Some (FAudio stored) /\
    length stored = length samples5.
Proof.
  intros out.
  destruct (embed_endpoint_files (FAudio samples5) "artist_1" "s3cret" w0)
    as [(message & Herr & _) | (Hret & y & stored & Hy & _ & Hout & Hlen & Hgone & _)].
  - vm_compute; reflexivity.
  - vm_compute. discriminate.
  - vm_compute in Herr. discriminate Herr.
  - injection Hy as <-.
    split; [exact Hret |]. split; [exact Hgone |]. exists stored. split; assumption.
Defined.

End FurtherRuns.
